(** * friendo: the photo capture component and the dev-time API logger

    Shallow embedding of
    - [ImageUpload] (the React component: select file, preview,
      base64-encode, submit or skip), and
    - [apiLoggerPlugin] (frontend/vite-api-logger.js, the connect
      middleware that copies API responses to api-logs.txt),
    together with the properties the specification states about them. *)

From Stdlib Require Import List String Ascii Strings.Byte DecimalString Bool Arith Lia.
Import ListNotations.
Local Open Scope string_scope.

(** ** JavaScript strings *)

Module Js.

(** [s.split(sep)] for a one-character separator: the pieces between the
    occurrences of [sep]; never the empty array. *)
Fixpoint split (sep : ascii) (s : string) : list string :=
  match s with
  | EmptyString => [EmptyString]
  | String c r =>
      if Ascii.eqb c sep then EmptyString :: split sep r
      else match split sep r with
           | h :: t => String c h :: t
           | [] => [String c EmptyString]
           end
  end.

(** [s.includes(c)] for a single character. *)
Fixpoint includes (c : ascii) (s : string) : bool :=
  match s with
  | EmptyString => false
  | String d r => Ascii.eqb d c || includes c r
  end.

(** [s.startsWith(p)]. *)
Definition startsWith (p s : string) : bool := String.prefix p s.

(** [parts.join(sep)]. *)
Definition join (sep : string) (parts : list string) : string :=
  String.concat sep parts.

End Js.

(** ** The browser's base64 (what [FileReader.readAsDataURL] emits)

    RFC 4648: three bytes become four characters of a 64-letter
    alphabet, the last group is padded with [=]. *)

Module Base64.

Definition sextet : Type := (bool * bool * bool * bool * bool * bool)%type.

Definition alphabet : list ascii :=
  list_ascii_of_string
    "ABCDEFGHIJKLMNOPQRSTUVWXYZabcdefghijklmnopqrstuvwxyz0123456789+/".

Definition pad : ascii := "="%char.

Definition bit (b : bool) (w : nat) : nat := if b then w else 0.

Definition sextet_index (s : sextet) : nat :=
  let '(a, b, c, d, e, f) := s in
  bit a 32 + bit b 16 + bit c 8 + bit d 4 + bit e 2 + bit f 1.

Definition char_of_sextet (s : sextet) : ascii :=
  nth (sextet_index s) alphabet pad.

Definition index_sextet (n : nat) : sextet :=
  (Nat.testbit n 5, Nat.testbit n 4, Nat.testbit n 3,
   Nat.testbit n 2, Nat.testbit n 1, Nat.testbit n 0).

Fixpoint position (c : ascii) (l : list ascii) : option nat :=
  match l with
  | [] => None
  | d :: r => if Ascii.eqb d c then Some 0
              else option_map S (position c r)
  end.

Definition sextet_of_char (c : ascii) : option sextet :=
  option_map index_sextet (position c alphabet).

(** Bits of a byte, most significant first. *)
Definition bits (x : byte) : bool * bool * bool * bool * bool * bool * bool * bool :=
  let '(b0, (b1, (b2, (b3, (b4, (b5, (b6, b7))))))) := Byte.to_bits x in
  (b7, b6, b5, b4, b3, b2, b1, b0).

Definition unbits (b7 b6 b5 b4 b3 b2 b1 b0 : bool) : byte :=
  Byte.of_bits (b0, (b1, (b2, (b3, (b4, (b5, (b6, b7))))))).

Definition enc3 (x y z : byte) : list ascii :=
  let '(x7, x6, x5, x4, x3, x2, x1, x0) := bits x in
  let '(y7, y6, y5, y4, y3, y2, y1, y0) := bits y in
  let '(z7, z6, z5, z4, z3, z2, z1, z0) := bits z in
  [ char_of_sextet (x7, x6, x5, x4, x3, x2);
    char_of_sextet (x1, x0, y7, y6, y5, y4);
    char_of_sextet (y3, y2, y1, y0, z7, z6);
    char_of_sextet (z5, z4, z3, z2, z1, z0) ].

Definition enc2 (x y : byte) : list ascii :=
  let '(x7, x6, x5, x4, x3, x2, x1, x0) := bits x in
  let '(y7, y6, y5, y4, y3, y2, y1, y0) := bits y in
  [ char_of_sextet (x7, x6, x5, x4, x3, x2);
    char_of_sextet (x1, x0, y7, y6, y5, y4);
    char_of_sextet (y3, y2, y1, y0, false, false);
    pad ].

Definition enc1 (x : byte) : list ascii :=
  let '(x7, x6, x5, x4, x3, x2, x1, x0) := bits x in
  [ char_of_sextet (x7, x6, x5, x4, x3, x2);
    char_of_sextet (x1, x0, false, false, false, false);
    pad; pad ].

Fixpoint encode_chars (bs : list byte) : list ascii :=
  match bs with
  | x :: y :: z :: r => enc3 x y z ++ encode_chars r
  | [x; y] => enc2 x y
  | [x] => enc1 x
  | [] => []
  end.

Definition encode (bs : list byte) : string :=
  string_of_list_ascii (encode_chars bs).

(** Decoding of one group of four characters. *)
Definition dec4 (c1 c2 c3 c4 : ascii) : option (list byte) :=
  match sextet_of_char c1, sextet_of_char c2 with
  | Some (a5, a4, a3, a2, a1, a0), Some (b5, b4, b3, b2, b1, b0) =>
      let x := unbits a5 a4 a3 a2 a1 a0 b5 b4 in
      if Ascii.eqb c3 pad then
        if Ascii.eqb c4 pad then Some [x] else None
      else
        match sextet_of_char c3 with
        | Some (c5, c4', c3', c2', c1', c0) =>
            let y := unbits b3 b2 b1 b0 c5 c4' c3' c2' in
            if Ascii.eqb c4 pad then Some [x; y]
            else
              match sextet_of_char c4 with
              | Some (d5, d4, d3, d2, d1, d0) =>
                  Some [x; y; unbits c1' c0 d5 d4 d3 d2 d1 d0]
              | None => None
              end
        | None => None
        end
  | _, _ => None
  end.

Definition is_pad (c : ascii) : bool := Ascii.eqb c pad.

(** The decoder: groups of four; padding only in the last group. *)
Fixpoint decode_chars (cs : list ascii) : option (list byte) :=
  match cs with
  | [] => Some []
  | c1 :: c2 :: c3 :: c4 :: r =>
      match dec4 c1 c2 c3 c4 with
      | Some g =>
          match r with
          | [] => Some g
          | _ :: _ =>
              if is_pad c3 || is_pad c4 then None
              else option_map (app g) (decode_chars r)
          end
      | None => None
      end
  | _ => None
  end.

Definition decode (s : string) : option (list byte) :=
  decode_chars (list_ascii_of_string s).

(** The characters base64 can produce. *)
Definition is_base64_char (c : ascii) : bool :=
  existsb (Ascii.eqb c) (alphabet ++ [pad]).

End Base64.

(** ** The capture component (function [ImageUpload])

    The component's three [useState] cells and two [useRef] cells are the
    fields of [state].  An [async] function runs up to its first [await]
    inside the handler that calls it and resumes when the awaited promise
    settles, so [processImage] is split at [await fileToBase64(file)]:
    the part before it is [processImage_start], the two continuations are
    [processImage_resolved] and [processImage_rejected].  The
    [FileReader]s that have been started and have not fired yet are kept
    in [readers]; they may fire in any order. *)

Module ImageUpload.

(** A [File]: what the component reads of it. *)
Record File := { name : string; type : string; content : list byte }.

(** The handle returned by [URL.createObjectURL]; each call returns a
    fresh one. *)
Definition url : Type := nat.

(** The object passed to [setImageData]; [base64] is [None] when
    [split(',')[1]] is [undefined]. *)
Record payload := { base64 : option string; mimeType : string }.

(** Calls that leave the component: the two callback props and
    [console.error]. *)
Inductive effect :=
  | OnSubmit (p : payload)
  | OnSkip
  | ConsoleError (msg : string).

Record state := {
  preview : option url;
  imageData : option payload;
  loading : bool;
  fileInputRef : option string;    (* [.current]: [None] is null, else its [.value] *)
  cameraInputRef : option string;
  readers : list (nat * File);     (* FileReaders in flight, by selection number *)
  next_url : nat;
  effects : list effect            (* oldest first *)
}.

Definition init : state :=
  {| preview := None; imageData := None; loading := false;
     fileInputRef := Some ""; cameraInputRef := Some "";
     readers := []; next_url := 0; effects := [] |}.

Definition setPreview (v : option url) (s : state) : state :=
  {| preview := v; imageData := imageData s; loading := loading s;
     fileInputRef := fileInputRef s; cameraInputRef := cameraInputRef s;
     readers := readers s; next_url := next_url s; effects := effects s |}.

Definition setImageData (v : option payload) (s : state) : state :=
  {| preview := preview s; imageData := v; loading := loading s;
     fileInputRef := fileInputRef s; cameraInputRef := cameraInputRef s;
     readers := readers s; next_url := next_url s; effects := effects s |}.

Definition setLoading (v : bool) (s : state) : state :=
  {| preview := preview s; imageData := imageData s; loading := v;
     fileInputRef := fileInputRef s; cameraInputRef := cameraInputRef s;
     readers := readers s; next_url := next_url s; effects := effects s |}.

Definition setFileInput (v : option string) (s : state) : state :=
  {| preview := preview s; imageData := imageData s; loading := loading s;
     fileInputRef := v; cameraInputRef := cameraInputRef s;
     readers := readers s; next_url := next_url s; effects := effects s |}.

Definition setCameraInput (v : option string) (s : state) : state :=
  {| preview := preview s; imageData := imageData s; loading := loading s;
     fileInputRef := fileInputRef s; cameraInputRef := v;
     readers := readers s; next_url := next_url s; effects := effects s |}.

Definition setReaders (v : list (nat * File)) (s : state) : state :=
  {| preview := preview s; imageData := imageData s; loading := loading s;
     fileInputRef := fileInputRef s; cameraInputRef := cameraInputRef s;
     readers := v; next_url := next_url s; effects := effects s |}.

Definition emit (e : effect) (s : state) : state :=
  {| preview := preview s; imageData := imageData s; loading := loading s;
     fileInputRef := fileInputRef s; cameraInputRef := cameraInputRef s;
     readers := readers s; next_url := next_url s;
     effects := effects s ++ [e] |}.

(** [URL.createObjectURL(file)]: a fresh handle. *)
Definition createObjectURL (s : state) : url * state :=
  (next_url s,
   {| preview := preview s; imageData := imageData s; loading := loading s;
      fileInputRef := fileInputRef s; cameraInputRef := cameraInputRef s;
      readers := readers s; next_url := S (next_url s);
      effects := effects s |}).

(** [a || b] on strings: the empty string is falsy. *)
Definition or_else (a b : string) : string :=
  if String.eqb a "" then b else a.

(** [reader.result] after [readAsDataURL(file)] (File API): the data URL
    of the file, its media type being the file's type
    ([application/octet-stream] when the file has none). *)
Definition readAsDataURL (f : File) : string :=
  "data:" ++ or_else (type f) "application/octet-stream" ++ ";base64,"
  ++ Base64.encode (content f).

(** [reader.onload] inside [fileToBase64]: the value the promise
    resolves with. *)
Definition fileToBase64_onload (result : string) : option string :=
  nth_error (Js.split "," result) 1.

(** What [fileToBase64(file)] resolves with when the read succeeds. *)
Definition fileToBase64 (f : File) : option string :=
  fileToBase64_onload (readAsDataURL f).

(** [processImage] up to [await fileToBase64(file)]; the reader started
    by [fileToBase64] is added to [readers].  ([createObjectURL] does not
    throw on a [File].) *)
Definition processImage_start (f : File) (s : state) : state :=
  let s := setLoading true s in
  let '(previewUrl, s) := createObjectURL s in
  let s := setPreview (Some previewUrl) s in
  setReaders (readers s ++ [(previewUrl, f)]) s.

(** [processImage] after the promise resolved with [b64]. *)
Definition processImage_resolved (f : File) (b64 : option string)
    (s : state) : state :=
  let s := setImageData
             (Some {| base64 := b64;
                      mimeType := or_else (type f) "image/jpeg" |}) s in
  setLoading false s.

(** [processImage] after the promise rejected: [catch], then [finally]. *)
Definition processImage_rejected (s : state) : state :=
  let s := emit (ConsoleError "Failed to process image:") s in
  setLoading false s.

(** [handleFileSelect]: [files] is [e.target.files]. *)
Definition handleFileSelect (files : list File) (s : state) : state :=
  match files with
  | [] => s
  | file :: _ => processImage_start file s
  end.

Definition handleSubmit (s : state) : state :=
  match imageData s with
  | Some d => emit (OnSubmit d) s
  | None => s
  end.

Definition handleClear (s : state) : state :=
  let s := setPreview None s in
  let s := setImageData None s in
  let s := match fileInputRef s with
           | Some _ => setFileInput (Some "") s
           | None => s
           end in
  match cameraInputRef s with
  | Some _ => setCameraInput (Some "") s
  | None => s
  end.

(** The [onSkip] prop, as the click handler of the skip button. *)
Definition onSkip (s : state) : state := emit OnSkip s.

(** *** What is rendered *)

Definition truthy {A} (o : option A) : bool :=
  match o with Some _ => true | None => false end.

Record view := {
  inputs_shown : bool;            (* the two file inputs: [!preview] *)
  preview_shown : option url;     (* the image and its Remove button *)
  spinner_shown : bool;           (* [loading &&] *)
  submit_button : option bool;    (* rendered?  [Some d]: [disabled = d] *)
  skip_disabled : bool
}.

Definition render (s : state) : view :=
  {| inputs_shown := negb (truthy (preview s));
     preview_shown := preview s;
     spinner_shown := loading s;
     submit_button :=
       if truthy (preview s) && truthy (imageData s)
       then Some (loading s) else None;
     skip_disabled := loading s |}.

(** The submit action can be taken: the button is there and enabled. *)
Definition submit_enabled (s : state) : bool :=
  match submit_button (render s) with
  | Some disabled => negb disabled
  | None => false
  end.

Definition skip_enabled (s : state) : bool := negb (skip_disabled (render s)).

(** After a handler React renders again: inputs that are no longer
    rendered are unmounted (their ref becomes null), inputs that appear
    are fresh (empty value). *)
Definition mount (shown : bool) (r : option string) : option string :=
  if shown then match r with Some v => Some v | None => Some "" end
  else None.

Definition rerender (s : state) : state :=
  let shown := inputs_shown (render s) in
  setCameraInput (mount shown (cameraInputRef s))
    (setFileInput (mount shown (fileInputRef s)) s).

(** *** Events *)

Inductive surface := Camera | Gallery.

Inductive event :=
  | Change (i : surface) (files : list File)   (* [onChange] of a file input *)
  | ReaderLoad (id : nat)                      (* [reader.onload] *)
  | ReaderError (id : nat)                     (* [reader.onerror] *)
  | ClickRemove
  | ClickSubmit
  | ClickSkip.

Fixpoint find_reader (id : nat) (l : list (nat * File)) : option File :=
  match l with
  | [] => None
  | (i, f) :: r => if Nat.eqb i id then Some f else find_reader id r
  end.

Definition drop_reader (id : nat) (l : list (nat * File)) : list (nat * File) :=
  filter (fun p => negb (Nat.eqb (fst p) id)) l.

(** The browser stores the chosen path in the input before [onChange]. *)
Definition choose (i : surface) (files : list File) (s : state) : state :=
  match files with
  | [] => s
  | f :: _ =>
      match i with
      | Camera => setCameraInput (Some ("C:\fakepath\" ++ name f)) s
      | Gallery => setFileInput (Some ("C:\fakepath\" ++ name f)) s
      end
  end.

(** One event.  A control that is not rendered, or is disabled, does
    not run its handler. *)
Definition step (s : state) (e : event) : state :=
  match e with
  | Change i files =>
      if inputs_shown (render s)
      then rerender (handleFileSelect files (choose i files s))
      else s
  | ReaderLoad id =>
      match find_reader id (readers s) with
      | Some f =>
          rerender (processImage_resolved f (fileToBase64 f)
                      (setReaders (drop_reader id (readers s)) s))
      | None => s
      end
  | ReaderError id =>
      match find_reader id (readers s) with
      | Some _ =>
          rerender (processImage_rejected
                      (setReaders (drop_reader id (readers s)) s))
      | None => s
      end
  | ClickRemove =>
      if truthy (preview_shown (render s)) then rerender (handleClear s)
      else s
  | ClickSubmit => if submit_enabled s then handleSubmit s else s
  | ClickSkip => if skip_enabled s then onSkip s else s
  end.

Definition run (s : state) (evs : list event) : state := fold_left step evs s.

Definition reachable (s : state) : Prop := exists evs, run init evs = s.

(** How often a callback was called. *)
Definition is_skip (e : effect) : bool :=
  match e with OnSkip => true | _ => false end.

Definition is_submit (e : effect) : bool :=
  match e with OnSubmit _ => true | _ => false end.

Definition is_error (e : effect) : bool :=
  match e with ConsoleError _ => true | _ => false end.

Definition calls (p : effect -> bool) (s : state) : nat :=
  List.length (filter p (effects s)).

(** *** Selections and their encodes *)

(** The payload that a successful encode of [f] stores. *)
Definition payload_of (f : File) : payload :=
  {| base64 := fileToBase64 f; mimeType := or_else (type f) "image/jpeg" |}.

(** Two selections whose encodes overlap: [f1] is chosen, removed while
    its reader is still running, then [f2] is chosen; afterwards both
    readers fire, the one of [f1] last when [first_fires_last]. *)
Definition overlapped (s : state) (f1 f2 : File) (first_fires_last : bool)
  : state :=
  let a := next_url s in
  run s ([Change Camera [f1]; ClickRemove; Change Gallery [f2]]
         ++ (if first_fires_last
             then [ReaderLoad (S a); ReaderLoad a]
             else [ReaderLoad a; ReaderLoad (S a)])).

(** A selection whose read fails. *)
Definition failed_selection (s : state) (i : surface) (f : File) : state :=
  run s [Change i [f]; ReaderError (next_url s)].

Definition is_reader_event (e : event) : bool :=
  match e with
  | ReaderLoad _ | ReaderError _ => true
  | _ => false
  end.

Definition idle (s : state) : bool :=
  match readers s with [] => true | _ :: _ => false end.

(** The events of [evs] do not overlap an encode: the user acts only
    while no reader is running. *)
Fixpoint serial_from (s : state) (evs : list event) : bool :=
  match evs with
  | [] => true
  | e :: r => (is_reader_event e || idle s) && serial_from (step s e) r
  end.

Definition serial (evs : list event) : bool := serial_from init evs.

(** The states of a run in which encodes never overlap user actions:
    nothing in flight, or exactly one reader, started from a state
    without payload. *)
Definition orderly (s : state) : Prop :=
  (readers s = [] /\ loading s = false
   /\ (truthy (imageData s) = true -> truthy (preview s) = true))
  \/ (exists id f, readers s = [(id, f)] /\ loading s = true
      /\ imageData s = None /\ truthy (preview s) = true).

(** *** The statements of the specification, as written *)

(** "If selectFile is called a second time before the first encode
    completes, the final settled payload must correspond to the second
    file, never the first." *)
Definition last_write_wins : Prop :=
  forall (f1 f2 : File) (first_fires_last : bool),
    imageData (overlapped init f1 f2 first_fires_last) = Some (payload_of f2).

(** "skip(): invokes onSkip exactly once; valid in any state, including
    while an encode is in flight." *)
Definition skip_in_any_state : Prop :=
  forall s, reachable s ->
    calls is_skip (step s ClickSkip) = S (calls is_skip s).

(** "encodedPayload is present if and only if previewReference is
    present and the encode step has completed; the submit action is
    only enabled when both are present and no encode is in flight." *)
Definition pending_image_invariant (s : state) : Prop :=
  (truthy (imageData s) = true <->
   truthy (preview s) = true /\ idle s = true)
  /\ (submit_enabled s = true ->
      truthy (preview s) = true /\ truthy (imageData s) = true
      /\ idle s = true).

(** "On encode failure ... state reverts to Empty-equivalent for
    submission purposes (no payload)." *)
Definition failure_leaves_no_payload : Prop :=
  forall s i f, reachable s -> inputs_shown (render s) = true ->
    imageData (failed_selection s i f) = None.


(** "the output is raw base64 payload only", for every file. *)
Definition encoder_strips_prefix : Prop :=
  forall f, fileToBase64 f = Some (Base64.encode (content f)).

(** *** Traces *)

(** A click on one of the two buttons that call a callback prop. *)
Definition is_action_click (e : event) : bool :=
  match e with
  | ClickSubmit | ClickSkip => true
  | _ => false
  end.

(** The files handed to [onChange] in a trace ([files[0]] of each). *)
Definition selected (evs : list event) : list File :=
  flat_map (fun e => match e with
                     | Change _ (f :: _) => [f]
                     | _ => []
                     end) evs.

(** The payloads passed to [onSubmit], oldest first. *)
Definition submitted (s : state) : list payload :=
  flat_map (fun e => match e with OnSubmit p => [p] | _ => [] end)
           (effects s).

(** Everything the component holds or has submitted comes from files
    that satisfy [P]. *)
Definition from_selection (P : File -> Prop) (s : state) : Prop :=
  (forall p, imageData s = Some p -> exists f, P f /\ p = payload_of f)
  /\ (forall id f, In (id, f) (readers s) -> P f)
  /\ (forall p, In p (submitted s) -> exists f, P f /\ p = payload_of f).

End ImageUpload.

(** ** The dev-time response logger (frontend/vite-api-logger.js)

    The middleware and the two functions it installs on [res] run in the
    state-and-exception monad [M]: the state is what the code can touch
    (the log file, the console, the closure's [chunks], which functions
    [res.write] and [res.end] currently are) plus [wire], the record of
    the calls that reached the original [res.write] and [res.end], which
    is what the client gets.  A [throw] is [inl]; [try_catch] is
    [try ... catch (err) ...]. *)

Module ApiLogger.

(** The values [res.write] and [res.end] are called with. *)
Inductive jsval :=
  | JUndefined
  | JNull
  | JString (s : string)
  | JBuffer (b : list byte)
  | JFunction (id : nat)           (* a callback *)
  | JBool (b : bool)
  | JThis.                         (* the response object itself *)

Inductive error :=
  | TypeError (msg : string)
  | SystemError (msg : string)     (* from [fs] *)
  | RangeError (msg : string)
  | ResponseError (msg : string).  (* thrown by the original methods *)

Inductive console_line :=
  | Log (msg : string)
  | Error (msg : string) (err : error).

Inductive wire_call :=
  | Write (chunk : jsval) (args : list jsval)
  | End (chunk : jsval) (args : list jsval).

Record request := { url : option string; method : string }.

(** Which function the property [res.write] (or [res.end]) holds. *)
Inductive method_impl :=
  | Original
  | Wrapped (req : request).

Record world := {
  log_writable : bool;             (* can api-logs.txt be written? *)
  log_content : string;
  console : list console_line;
  chunks : list (list byte);
  statusCode : nat;
  res_write : method_impl;
  res_end : method_impl;
  next_calls : nat;
  wire : list wire_call
}.

Definition M (A : Type) : Type := world -> (error + A) * world.

Definition ret {A} (a : A) : M A := fun w => (inr a, w).

Definition throw {A} (e : error) : M A := fun w => (inl e, w).

Definition bind {A B} (c : M A) (k : A -> M B) : M B :=
  fun w => match c w with
           | (inr a, w') => k a w'
           | (inl e, w') => (inl e, w')
           end.

Definition try_catch {A} (c : M A) (h : error -> M A) : M A :=
  fun w => match c w with
           | (inr a, w') => (inr a, w')
           | (inl e, w') => h e w'
           end.

Definition lift {A} (r : error + A) : M A := fun w => (r, w).

Notation "x <- c ;; k" := (bind c (fun x => k))
  (at level 61, c at next level, right associativity).
Notation "c ;;; k" := (bind c (fun _ => k))
  (at level 61, right associativity).

Definition set_log (c : string) (w : world) : world :=
  {| log_writable := log_writable w; log_content := c;
     console := console w; chunks := chunks w; statusCode := statusCode w;
     res_write := res_write w; res_end := res_end w;
     next_calls := next_calls w; wire := wire w |}.

Definition set_console (c : list console_line) (w : world) : world :=
  {| log_writable := log_writable w; log_content := log_content w;
     console := c; chunks := chunks w; statusCode := statusCode w;
     res_write := res_write w; res_end := res_end w;
     next_calls := next_calls w; wire := wire w |}.

Definition set_chunks (c : list (list byte)) (w : world) : world :=
  {| log_writable := log_writable w; log_content := log_content w;
     console := console w; chunks := c; statusCode := statusCode w;
     res_write := res_write w; res_end := res_end w;
     next_calls := next_calls w; wire := wire w |}.

Definition set_methods (wr en : method_impl) (w : world) : world :=
  {| log_writable := log_writable w; log_content := log_content w;
     console := console w; chunks := chunks w; statusCode := statusCode w;
     res_write := wr; res_end := en;
     next_calls := next_calls w; wire := wire w |}.

Definition set_next (n : nat) (w : world) : world :=
  {| log_writable := log_writable w; log_content := log_content w;
     console := console w; chunks := chunks w; statusCode := statusCode w;
     res_write := res_write w; res_end := res_end w;
     next_calls := n; wire := wire w |}.

Definition set_wire (c : list wire_call) (w : world) : world :=
  {| log_writable := log_writable w; log_content := log_content w;
     console := console w; chunks := chunks w; statusCode := statusCode w;
     res_write := res_write w; res_end := res_end w;
     next_calls := next_calls w; wire := c |}.

(** JavaScript truthiness ([if (chunk)]). *)
Definition truthy (v : jsval) : bool :=
  match v with
  | JUndefined | JNull => false
  | JString s => negb (String.eqb s "")
  | JBool b => b
  | JBuffer _ | JFunction _ | JThis => true
  end.

Definition Buffer_isBuffer (v : jsval) : bool :=
  match v with JBuffer _ => true | _ => false end.

Fixpoint repeat_string (s : string) (n : nat) : string :=
  match n with
  | 0 => ""
  | S k => s ++ repeat_string s k
  end.

Definition newline : string := String (ascii_of_nat 10) "".

Definition show_nat (n : nat) : string :=
  DecimalString.NilEmpty.string_of_uint (Nat.to_uint n).

(** [`${v}`] for a possibly undefined string. *)
Definition show (o : option string) : string :=
  match o with Some s => s | None => "undefined" end.

Definition apiPaths : list string := ["/users"; "/tasks"; "/energy"; "/api"].

(** [apiPaths.some(p => req.url?.startsWith(p))] *)
Definition isApiCall (req : request) : bool :=
  existsb (fun p => match url req with
                    | Some u => Js.startsWith p u
                    | None => false
                    end) apiPaths.

Section Plugin.

(** Supplied by the platform. *)
Variable utf8_encode : string -> list byte.            (* [Buffer.from(str)] *)
Variable utf8_decode : list byte -> error + string.    (* [buf.toString('utf8')] *)
Variable json_pretty : string -> option string.
  (* [JSON.stringify(JSON.parse(s), null, 2)]; [None] when the parse throws *)
Variable timestamp : string.                           (* [new Date().toISOString()] *)
Variable write_result end_result :
  list wire_call -> jsval -> list jsval -> error + jsval.
  (* what the original method returns (or throws), given the calls
     that came before *)

(** [Buffer.from(chunk)] *)
Definition Buffer_from (v : jsval) : error + list byte :=
  match v with
  | JString s => inr (utf8_encode s)
  | JBuffer b => inr b
  | _ => inl (TypeError "The first argument must be of type string or an instance of Buffer, ArrayBuffer, or Array or an Array-like Object.")
  end.

(** [fs.appendFileSync(logFile, data)] *)
Definition appendFileSync (data : string) : M unit :=
  fun w => if log_writable w
           then (inr tt, set_log (log_content w ++ data) w)
           else (inl (SystemError "EACCES: permission denied, open 'api-logs.txt'"), w).

(** [fs.writeFileSync(logFile, data)] *)
Definition writeFileSync (data : string) : M unit :=
  fun w => if log_writable w
           then (inr tt, set_log data w)
           else (inl (SystemError "EACCES: permission denied, open 'api-logs.txt'"), w).

Definition console_log (msg : string) : M unit :=
  fun w => (inr tt, set_console (console w ++ [Log msg]) w).

Definition console_error (msg : string) (err : error) : M unit :=
  fun w => (inr tt, set_console (console w ++ [Error msg err]) w).

Definition chunks_push (b : list byte) : M unit :=
  fun w => (inr tt, set_chunks (chunks w ++ [b]) w).

Definition get_chunks : M (list (list byte)) := fun w => (inr (chunks w), w).

Definition get_statusCode : M nat := fun w => (inr (statusCode w), w).

(** The bound original methods: the call reaches the response. *)
Definition originalWrite (chunk : jsval) (args : list jsval) : M jsval :=
  fun w => (write_result (wire w) chunk args,
            set_wire (wire w ++ [Write chunk args]) w).

Definition originalEnd (chunk : jsval) (args : list jsval) : M jsval :=
  fun w => (end_result (wire w) chunk args,
            set_wire (wire w ++ [End chunk args]) w).

Definition next : M unit := fun w => (inr tt, set_next (S (next_calls w)) w).

(** The banner written when the plugin is created. *)
Definition startup : M unit :=
  writeFileSync ("=== API Response Logs ===" ++ newline ++ "Started: "
                 ++ timestamp ++ newline ++ repeat_string "=" 50
                 ++ newline ++ newline).

Definition logToFile (entry : string) : M unit :=
  let logEntry := "[" ++ timestamp ++ "]" ++ newline ++ entry ++ newline
                  ++ repeat_string "─" 50 ++ newline ++ newline in
  appendFileSync logEntry.

(** [if (chunk) chunks.push(Buffer.isBuffer(chunk) ? chunk : Buffer.from(chunk))] *)
Definition capture (chunk : jsval) : M unit :=
  if truthy chunk then
    b <- lift (match chunk with
               | JBuffer b => inr b
               | _ => Buffer_from chunk
               end) ;;
    chunks_push b
  else ret tt.

(** The function assigned to [res.write]. *)
Definition wrapped_write (req : request) (chunk : jsval) (args : list jsval)
  : M jsval :=
  capture chunk ;;;
  originalWrite chunk args.

(** The body of the [try] block in the function assigned to [res.end]. *)
Definition log_response (req : request) : M unit :=
  cs <- get_chunks ;;
  body <- lift (utf8_decode (List.concat cs)) ;;
  let formattedBody :=
    match json_pretty body with
    | Some pretty => pretty
    | None => body
    end in
  status <- get_statusCode ;;
  let logEntry :=
    Js.join newline
      [ method req ++ " " ++ show (url req);
        "Status: " ++ show_nat status;
        "Response:";
        formattedBody ] in
  logToFile logEntry ;;;
  console_log ("📝 Logged API response: " ++ method req ++ " " ++ show (url req)).

(** The function assigned to [res.end]. *)
Definition wrapped_end (req : request) (chunk : jsval) (args : list jsval)
  : M jsval :=
  capture chunk ;;;
  try_catch (log_response req)
            (fun err => console_error "Failed to log API response:" err) ;;;
  originalEnd chunk args.

(** The middleware passed to [server.middlewares.use]. *)
Definition middleware (req : request) : M unit :=
  if negb (isApiCall req) then next
  else
    fun w =>
      next (set_methods (Wrapped req) (Wrapped req) (set_chunks [] w)).

(** Calling [res.write(chunk, ...args)] and [res.end(chunk, ...args)]:
    whatever function the property holds at that time. *)
Definition call_write (chunk : jsval) (args : list jsval) : M jsval :=
  fun w => match res_write w with
           | Original => originalWrite chunk args w
           | Wrapped req => wrapped_write req chunk args w
           end.

Definition call_end (chunk : jsval) (args : list jsval) : M jsval :=
  fun w => match res_end w with
           | Original => originalEnd chunk args w
           | Wrapped req => wrapped_end req chunk args w
           end.

(** A downstream handler, as the calls it makes on [res]; it stops at
    the first call that throws. *)
Inductive res_call :=
  | CallWrite (chunk : jsval) (args : list jsval)
  | CallEnd (chunk : jsval) (args : list jsval).

Definition perform (c : res_call) : M jsval :=
  match c with
  | CallWrite chunk args => call_write chunk args
  | CallEnd chunk args => call_end chunk args
  end.

Fixpoint handler (cs : list res_call) : M (list jsval) :=
  match cs with
  | [] => ret []
  | c :: r =>
      v <- perform c ;;
      vs <- handler r ;;
      ret (v :: vs)
  end.

(** A request served with the logger installed, and without it. *)
Definition serve_logged (req : request) (cs : list res_call) : M (list jsval) :=
  middleware req ;;; handler cs.

Definition serve_plain (cs : list res_call) : M (list jsval) :=
  next ;;; handler cs.

End Plugin.

(** A chunk that [res.write] and [res.end] take as data. *)
Definition is_data (v : jsval) : bool :=
  match v with
  | JUndefined | JNull | JString _ | JBuffer _ => true
  | JFunction _ | JBool _ | JThis => false
  end.

Definition fresh (writable : bool) : world :=
  {| log_writable := writable; log_content := ""; console := [];
     chunks := []; statusCode := 200; res_write := Original;
     res_end := Original; next_calls := 0; wire := [] |}.

(** The statement about the logger, as written: for every request and
    every sequence of calls on [res], serving with the logger installed
    returns what serving without it returns and sends the same calls to
    the response. *)
Definition transparent : Prop :=
  forall utf8_encode utf8_decode json_pretty timestamp write_result end_result
         (req : request) (cs : list res_call) (writable : bool),
    let logged := serve_logged utf8_encode utf8_decode json_pretty timestamp
                    write_result end_result req cs (fresh writable) in
    let plain := serve_plain utf8_encode utf8_decode json_pretty timestamp
                   write_result end_result cs (fresh writable) in
    fst logged = fst plain /\ wire (snd logged) = wire (snd plain).

Definition data_call (c : res_call) : bool :=
  match c with
  | CallWrite chunk _ | CallEnd chunk _ => is_data chunk
  end.

(** What the wrappers push on [chunks] for one call. *)
Definition captured (utf8_encode : string -> list byte) (chunk : jsval)
  : list (list byte) :=
  if truthy chunk then
    match chunk with
    | JBuffer b => [b]
    | JString s => [utf8_encode s]
    | _ => []
    end
  else [].

Definition call_chunk (c : res_call) : jsval :=
  match c with
  | CallWrite chunk _ | CallEnd chunk _ => chunk
  end.

Definition is_write (c : res_call) : bool :=
  match c with
  | CallWrite _ _ => true
  | CallEnd _ _ => false
  end.

End ApiLogger.

(** ** The bundler configuration (frontend/vite.config.js) *)

Module ViteConfig.

Record terserCompress := { drop_console : bool; drop_debugger : bool }.

Record config := {
  plugins : list string;
  proxy : list (string * string);          (* [server.proxy], in key order *)
  outDir : string;
  assetsDir : string;
  minify : string;
  compress : terserCompress;
  manualChunks : list (string * list string);
  sourcemap : bool;
  chunkSizeWarningLimit : nat;
  preview_port : nat
}.

(** The function passed to [defineConfig], applied to [{ mode }]. *)
Definition defineConfig (mode : string) : config :=
  let isDev := String.eqb mode "development" in
  {| plugins := ["react"];
     proxy := [ ("/users", "http://localhost:8000");
                ("/tasks", "http://localhost:8000");
                ("/energy", "http://localhost:8000");
                ("/api", "http://localhost:8000") ];
     outDir := "dist";
     assetsDir := "assets";
     minify := "terser";
     compress := {| drop_console := negb isDev; drop_debugger := negb isDev |};
     manualChunks := [ ("vendor", ["react"; "react-dom"]) ];
     sourcemap := isDev;
     chunkSizeWarningLimit := 500;
     preview_port := 4173 |}.

(** The dev server proxies a request when its URL starts with a key of
    [server.proxy] (keys that do not begin with [^] are prefixes). *)
Definition proxy_target (c : config) (u : string) : option string :=
  option_map snd (find (fun kv => Js.startsWith (fst kv) u) (proxy c)).

End ViteConfig.

(** ** Sample inputs *)

Module Samples.
Import ImageUpload.

Definition hi_png : File :=
  {| name := "hi.png"; type := "image/png";
     content := ["h"%byte; "i"%byte] |}.

Definition man_jpg : File :=
  {| name := "man.jpg"; type := "image/jpeg";
     content := ["M"%byte; "a"%byte; "n"%byte] |}.

(** A file the platform gave no content type. *)
Definition untyped : File :=
  {| name := "scan"; type := ""; content := ["M"%byte; "a"%byte] |}.

(** A file whose declared type has a comma in it. *)
Definition two_types : File :=
  {| name := "hi.img"; type := "image/png,image/jpeg";
     content := ["h"%byte; "i"%byte] |}.

(** The component with a completed selection of [hi_png]. *)
Definition ready : state :=
  run init [Change Gallery [hi_png]; ReaderLoad 0].

(** The component while [hi_png] is being encoded. *)
Definition busy : state := run init [Change Gallery [hi_png]].


End Samples.

(** A platform for the examples: ASCII for UTF-8, no JSON, a fixed
    clock, a response whose [write] returns [true] and whose [end]
    returns the response. *)
Module Platform.
Import ApiLogger.

Definition utf8_encode (s : string) : list byte :=
  map byte_of_ascii (list_ascii_of_string s).

Definition utf8_decode (b : list byte) : error + string :=
  inr (string_of_list_ascii (map ascii_of_byte b)).

Definition json_pretty (s : string) : option string := None.

Definition timestamp : string := "2025-01-01T00:00:00.000Z".

Definition write_result (h : list wire_call) (c : jsval) (a : list jsval)
  : error + jsval := inr (JBool true).

Definition end_result (h : list wire_call) (c : jsval) (a : list jsval)
  : error + jsval := inr JThis.

Definition health : request := {| url := Some "/api/health"; method := "GET" |}.

Definition asset : request := {| url := Some "/src/main.jsx"; method := "GET" |}.

End Platform.

(** * Properties *)

(** ** Strings *)

Module JsFacts.
Import Js.

Lemma includes_app (c : ascii) (a b : string) :
  includes c (a ++ b) = includes c a || includes c b.
Proof.
  induction a as [|d a IH]; simpl; [reflexivity|].
  rewrite IH. now rewrite orb_assoc.
Qed.

Lemma split_none (sep : ascii) (s : string) :
  includes sep s = false -> split sep s = [s].
Proof.
  induction s as [|c s IH]; simpl; intros H; [reflexivity|].
  apply orb_false_elim in H as [Hc Hs].
  rewrite Hc, (IH Hs). reflexivity.
Qed.

(** Splitting at the only separator of a string. *)
Lemma split_once (sep : ascii) (a b : string) :
  includes sep a = false -> includes sep b = false ->
  split sep (a ++ String sep b) = [a; b].
Proof.
  intros Ha Hb. induction a as [|c a IH]; simpl.
  - rewrite Ascii.eqb_refl, (split_none _ _ Hb). reflexivity.
  - simpl in Ha. apply orb_false_elim in Ha as [Hc Ha].
    rewrite Hc, (IH Ha). reflexivity.
Qed.

Lemma append_assoc (a b c : string) : ((a ++ b) ++ c = a ++ (b ++ c))%string.
Proof.
  induction a as [|d a IH]; simpl; [reflexivity|]. now rewrite IH.
Qed.

Lemma includes_list (c : ascii) (l : list ascii) :
  includes c (string_of_list_ascii l) = existsb (fun d => Ascii.eqb d c) l.
Proof.
  induction l as [|d l IH]; simpl; [reflexivity|]. now rewrite IH.
Qed.

End JsFacts.

(** ** Base64 *)

Module Base64Facts.
Import Base64.

Lemma sextet_of_char_of_sextet (s : sextet) :
  sextet_of_char (char_of_sextet s) = Some s.
Proof.
  destruct s as [[[[[[] []] []] []] []] []]; vm_compute; reflexivity.
Qed.

Lemma char_of_sextet_not_pad (s : sextet) :
  Ascii.eqb (char_of_sextet s) pad = false.
Proof.
  destruct s as [[[[[[] []] []] []] []] []]; vm_compute; reflexivity.
Qed.

Lemma char_of_sextet_base64 (s : sextet) :
  is_base64_char (char_of_sextet s) = true.
Proof.
  destruct s as [[[[[[] []] []] []] []] []]; vm_compute; reflexivity.
Qed.

Lemma unbits_bits (x : byte) b7 b6 b5 b4 b3 b2 b1 b0 :
  bits x = (b7, b6, b5, b4, b3, b2, b1, b0) ->
  unbits b7 b6 b5 b4 b3 b2 b1 b0 = x.
Proof.
  unfold bits, unbits. intros H.
  rewrite <- (Byte.of_bits_to_bits x).
  destruct (Byte.to_bits x) as (c0 & c1 & c2 & c3 & c4 & c5 & c6 & c7).
  now inversion H.
Qed.

Lemma dec4_sextets (s1 s2 s3 s4 : sextet) :
  dec4 (char_of_sextet s1) (char_of_sextet s2)
       (char_of_sextet s3) (char_of_sextet s4) =
  let '(a5, a4, a3, a2, a1, a0) := s1 in
  let '(b5, b4, b3, b2, b1, b0) := s2 in
  let '(c5, c4, c3, c2, c1, c0) := s3 in
  let '(d5, d4, d3, d2, d1, d0) := s4 in
  Some [ unbits a5 a4 a3 a2 a1 a0 b5 b4;
         unbits b3 b2 b1 b0 c5 c4 c3 c2;
         unbits c1 c0 d5 d4 d3 d2 d1 d0 ].
Proof.
  unfold dec4.
  rewrite !sextet_of_char_of_sextet, !char_of_sextet_not_pad.
  destruct s1 as [[[[[? ?] ?] ?] ?] ?], s2 as [[[[[? ?] ?] ?] ?] ?],
           s3 as [[[[[? ?] ?] ?] ?] ?], s4 as [[[[[? ?] ?] ?] ?] ?].
  reflexivity.
Qed.

Lemma dec4_pad1 (s1 s2 s3 : sextet) :
  dec4 (char_of_sextet s1) (char_of_sextet s2) (char_of_sextet s3) pad =
  let '(a5, a4, a3, a2, a1, a0) := s1 in
  let '(b5, b4, b3, b2, b1, b0) := s2 in
  let '(c5, c4, c3, c2, c1, c0) := s3 in
  Some [ unbits a5 a4 a3 a2 a1 a0 b5 b4;
         unbits b3 b2 b1 b0 c5 c4 c3 c2 ].
Proof.
  unfold dec4.
  rewrite !sextet_of_char_of_sextet, !char_of_sextet_not_pad.
  destruct s1 as [[[[[? ?] ?] ?] ?] ?], s2 as [[[[[? ?] ?] ?] ?] ?],
           s3 as [[[[[? ?] ?] ?] ?] ?].
  reflexivity.
Qed.

Lemma dec4_pad2 (s1 s2 : sextet) :
  dec4 (char_of_sextet s1) (char_of_sextet s2) pad pad =
  let '(a5, a4, a3, a2, a1, a0) := s1 in
  let '(b5, b4, b3, b2, b1, b0) := s2 in
  Some [ unbits a5 a4 a3 a2 a1 a0 b5 b4 ].
Proof.
  unfold dec4.
  rewrite !sextet_of_char_of_sextet.
  destruct s1 as [[[[[? ?] ?] ?] ?] ?], s2 as [[[[[? ?] ?] ?] ?] ?].
  reflexivity.
Qed.

(** Induction on lists, three elements at a time. *)
Lemma list_ind3 {A} (P : list A -> Prop) :
  P [] -> (forall x, P [x]) -> (forall x y, P [x; y]) ->
  (forall x y z r, P r -> P (x :: y :: z :: r)) ->
  forall l, P l.
Proof.
  intros H0 H1 H2 H3.
  fix IH 1.
  intros [|x [|y [|z r]]]; [apply H0 | apply H1 | apply H2 | apply H3, IH].
Qed.

Lemma encode_chars_nil (bs : list byte) : encode_chars bs = [] -> bs = [].
Proof.
  destruct bs as [|x [|y [|z r]]]; [reflexivity| | |]; simpl.
  - unfold enc1. destruct (bits x) as [[[[[[[? ?] ?] ?] ?] ?] ?] ?]. discriminate.
  - unfold enc2.
    destruct (bits x) as [[[[[[[? ?] ?] ?] ?] ?] ?] ?],
             (bits y) as [[[[[[[? ?] ?] ?] ?] ?] ?] ?]. discriminate.
  - unfold enc3.
    destruct (bits x) as [[[[[[[? ?] ?] ?] ?] ?] ?] ?],
             (bits y) as [[[[[[[? ?] ?] ?] ?] ?] ?] ?],
             (bits z) as [[[[[[[? ?] ?] ?] ?] ?] ?] ?]. discriminate.
Qed.

(** Decoding undoes encoding. *)
Lemma decode_encode_chars (bs : list byte) :
  decode_chars (encode_chars bs) = Some bs.
Proof.
  induction bs as [|x|x y|x y z r IH] using list_ind3.
  - reflexivity.
  - cbn [encode_chars]. unfold enc1.
    destruct (bits x) as [[[[[[[x7 x6] x5] x4] x3] x2] x1] x0] eqn:Hx.
    cbn [decode_chars]. rewrite dec4_pad2.
    now rewrite (unbits_bits _ _ _ _ _ _ _ _ _ Hx).
  - cbn [encode_chars]. unfold enc2.
    destruct (bits x) as [[[[[[[x7 x6] x5] x4] x3] x2] x1] x0] eqn:Hx.
    destruct (bits y) as [[[[[[[y7 y6] y5] y4] y3] y2] y1] y0] eqn:Hy.
    cbn [decode_chars]. rewrite dec4_pad1.
    now rewrite (unbits_bits _ _ _ _ _ _ _ _ _ Hx),
                (unbits_bits _ _ _ _ _ _ _ _ _ Hy).
  - cbn [encode_chars]. unfold enc3.
    destruct (bits x) as [[[[[[[x7 x6] x5] x4] x3] x2] x1] x0] eqn:Hx.
    destruct (bits y) as [[[[[[[y7 y6] y5] y4] y3] y2] y1] y0] eqn:Hy.
    destruct (bits z) as [[[[[[[z7 z6] z5] z4] z3] z2] z1] z0] eqn:Hz.
    cbn [app decode_chars]. rewrite dec4_sextets.
    rewrite (unbits_bits _ _ _ _ _ _ _ _ _ Hx),
            (unbits_bits _ _ _ _ _ _ _ _ _ Hy),
            (unbits_bits _ _ _ _ _ _ _ _ _ Hz).
    destruct (encode_chars r) as [|c cs] eqn:Hr.
    + apply encode_chars_nil in Hr. now subst r.
    + unfold is_pad. rewrite !char_of_sextet_not_pad. cbn [orb].
      rewrite IH. reflexivity.
Qed.

Lemma decode_encode (bs : list byte) : decode (encode bs) = Some bs.
Proof.
  unfold decode, encode.
  rewrite list_ascii_of_string_of_list_ascii. apply decode_encode_chars.
Qed.

Lemma pad_base64 : is_base64_char pad = true.
Proof. vm_compute; reflexivity. Qed.

Lemma encode_chars_base64 (bs : list byte) :
  forallb is_base64_char (encode_chars bs) = true.
Proof.
  induction bs as [|x|x y|x y z r IH] using list_ind3.
  - reflexivity.
  - cbn [encode_chars]. unfold enc1.
    destruct (bits x) as [[[[[[[? ?] ?] ?] ?] ?] ?] ?].
    cbn [forallb]. now rewrite !char_of_sextet_base64, pad_base64.
  - cbn [encode_chars]. unfold enc2.
    destruct (bits x) as [[[[[[[? ?] ?] ?] ?] ?] ?] ?],
             (bits y) as [[[[[[[? ?] ?] ?] ?] ?] ?] ?].
    cbn [forallb]. now rewrite !char_of_sextet_base64, pad_base64.
  - cbn [encode_chars]. unfold enc3.
    destruct (bits x) as [[[[[[[? ?] ?] ?] ?] ?] ?] ?],
             (bits y) as [[[[[[[? ?] ?] ?] ?] ?] ?] ?],
             (bits z) as [[[[[[[? ?] ?] ?] ?] ?] ?] ?].
    cbn [app forallb]. now rewrite !char_of_sextet_base64, IH.
Qed.

(** A character outside the base64 alphabet does not occur in an
    encoding. *)
Lemma encode_excludes (c : ascii) (bs : list byte) :
  is_base64_char c = false -> Js.includes c (encode bs) = false.
Proof.
  intros Hc. unfold encode. rewrite JsFacts.includes_list.
  pose proof (encode_chars_base64 bs) as H.
  induction (encode_chars bs) as [|d l IH]; [reflexivity|].
  cbn [forallb existsb] in *. apply andb_prop in H as [Hd Hl].
  rewrite (IH Hl), orb_false_r.
  destruct (Ascii.eqb_spec d c) as [->|]; [congruence|reflexivity].
Qed.

End Base64Facts.

(** ** The capture component *)

Module Capture.
Import ImageUpload.
Local Open Scope list_scope.

Lemma run_app (s : state) (a b : list event) :
  run s (a ++ b) = run (run s a) b.
Proof. apply fold_left_app. Qed.

Lemma run_snoc (s : state) (evs : list event) (e : event) :
  run s (evs ++ [e]) = step (run s evs) e.
Proof. now rewrite run_app. Qed.

Lemma calls_emit (p : effect -> bool) (e : effect) (s : state) :
  calls p (emit e s) = calls p s + (if p e then 1 else 0).
Proof.
  unfold calls, emit; simpl. rewrite filter_app, length_app. simpl.
  now destruct (p e).
Qed.

(** *** skip *)

(** C2, as the specification has it, fails: while a file is being
    encoded the skip button is disabled and a click calls nothing. *)
Lemma skip_blocked_while_loading : ~ skip_in_any_state.
Proof.
  intros H.
  specialize (H Samples.busy
                (ex_intro _ [Change Gallery [Samples.hi_png]] eq_refl)).
  vm_compute in H. discriminate.
Qed.

(** C2 (amended): in every state whose loading flag is clear a click on
    skip calls [onSkip] exactly once, calls [onSubmit] not at all and
    changes nothing else; while the loading flag is set the button is
    disabled and the click does nothing. *)
Theorem skip_unless_loading (s : state) :
  (loading s = false ->
     step s ClickSkip = emit OnSkip s
     /\ calls is_skip (step s ClickSkip) = S (calls is_skip s)
     /\ calls is_submit (step s ClickSkip) = calls is_submit s)
  /\ (loading s = true -> step s ClickSkip = s).
Proof.
  unfold step, skip_enabled, render, onSkip; cbn [skip_disabled].
  split; intros ->; cbn [negb]; [|reflexivity].
  rewrite !calls_emit; cbn. repeat split; lia.
Qed.

Lemma skip_unless_loading_witness :
  (step Samples.ready ClickSkip = emit OnSkip Samples.ready
   /\ calls is_skip (step Samples.ready ClickSkip)
      = S (calls is_skip Samples.ready)
   /\ calls is_submit (step Samples.ready ClickSkip)
      = calls is_submit Samples.ready)
  /\ step Samples.busy ClickSkip = Samples.busy.
Proof.
  split.
  - apply (proj1 (skip_unless_loading Samples.ready)). reflexivity.
  - apply (proj2 (skip_unless_loading Samples.busy)). reflexivity.
Defined.

(** *** confirm *)

Lemma submit_enabled_iff (s : state) :
  submit_enabled s = true <->
  truthy (preview s) = true /\ truthy (imageData s) = true
  /\ loading s = false.
Proof.
  unfold submit_enabled, render; cbn [submit_button].
  destruct (truthy (preview s)), (truthy (imageData s)), (loading s);
    cbn; intuition discriminate.
Qed.

Lemma handleSubmit_emits (s : state) (p : payload) :
  imageData s = Some p -> handleSubmit s = emit (OnSubmit p) s.
Proof. unfold handleSubmit. now intros ->. Qed.




(** *** clear *)

(** C7: [handleClear] resets preview and payload whatever the state,
    and leaves the submit action disabled.  After a completed selection
    (preview and payload present, loading flag clear) a click on Remove,
    which runs it, gives what the initial state gives: the same three
    state cells, the same two empty inputs and the same rendering, with
    no preview shown and no submit button. *)
Theorem clear_resets (s : state) :
  (preview (handleClear s) = None /\ imageData (handleClear s) = None
   /\ submit_enabled (handleClear s) = false)
  /\ (forall u p,
        preview s = Some u -> imageData s = Some p -> loading s = false ->
        let s' := step s ClickRemove in
        preview s' = preview init /\ imageData s' = imageData init
        /\ loading s' = loading init
        /\ fileInputRef s' = fileInputRef init
        /\ cameraInputRef s' = cameraInputRef init
        /\ render s' = render init
        /\ preview_shown (render s') = None
        /\ submit_enabled s' = false).
Proof.
  destruct s as [pv im ld fr cr rd nx ef]. split.
  - destruct fr, cr; cbn; repeat split; reflexivity.
  - intros u p Hu Hp Hl. cbn in Hu, Hp, Hl. subst pv im ld.
    destruct fr, cr; cbn; repeat split; reflexivity.
Qed.

Lemma clear_resets_witness :
  render (step Samples.ready ClickRemove) = render init
  /\ preview_shown (render (step Samples.ready ClickRemove)) = None
  /\ submit_enabled (step Samples.ready ClickRemove) = false.
Proof.
  pose proof (proj2 (clear_resets Samples.ready) 0
                {| base64 := Some "aGk="; mimeType := "image/png" |}
                eq_refl eq_refl eq_refl) as H.
  cbv zeta in H. repeat split; apply H.
Defined.

(** *** One step, field by field *)

Lemma step_change_file (s : state) (i : surface) (f : File) (r : list File) :
  preview s = None ->
  step s (Change i (f :: r)) =
  {| preview := Some (next_url s); imageData := imageData s;
     loading := true; fileInputRef := None; cameraInputRef := None;
     readers := readers s ++ [(next_url s, f)];
     next_url := S (next_url s); effects := effects s |}.
Proof.
  destruct s as [pv im ld fr cr rd nx ef]; cbn. intros ->.
  destruct i; reflexivity.
Qed.

Lemma step_remove (s : state) (u : url) :
  preview s = Some u ->
  step s ClickRemove =
  {| preview := None; imageData := None; loading := loading s;
     fileInputRef := Some ""; cameraInputRef := Some "";
     readers := readers s; next_url := next_url s; effects := effects s |}.
Proof.
  destruct s as [pv im ld fr cr rd nx ef]; cbn. intros ->.
  destruct fr, cr; reflexivity.
Qed.

Lemma step_load (s : state) (id : nat) (f : File) :
  find_reader id (readers s) = Some f ->
  step s (ReaderLoad id) =
  {| preview := preview s; imageData := Some (payload_of f);
     loading := false;
     fileInputRef := mount (negb (truthy (preview s))) (fileInputRef s);
     cameraInputRef := mount (negb (truthy (preview s))) (cameraInputRef s);
     readers := drop_reader id (readers s);
     next_url := next_url s; effects := effects s |}.
Proof. unfold step. intros ->. reflexivity. Qed.

Lemma step_error (s : state) (id : nat) (f : File) :
  find_reader id (readers s) = Some f ->
  step s (ReaderError id) =
  {| preview := preview s; imageData := imageData s; loading := false;
     fileInputRef := mount (negb (truthy (preview s))) (fileInputRef s);
     cameraInputRef := mount (negb (truthy (preview s))) (cameraInputRef s);
     readers := drop_reader id (readers s);
     next_url := next_url s;
     effects := effects s ++ [ConsoleError "Failed to process image:"] |}.
Proof. unfold step. intros ->. reflexivity. Qed.

(** *** Readers are numbered by the selections that started them *)

Lemma find_reader_later (l l' : list (nat * File)) (n id : nat) :
  Forall (fun p => fst p < n) l -> n <= id ->
  find_reader id (l ++ l') = find_reader id l'.
Proof.
  intros H Hn. induction H as [|[i f] l Hi _ IH]; [reflexivity|].
  cbn in *. destruct (Nat.eqb_spec i id); [lia|exact IH].
Qed.

Lemma drop_reader_later (l l' : list (nat * File)) (n id : nat) :
  Forall (fun p => fst p < n) l -> n <= id ->
  drop_reader id (l ++ l') = l ++ drop_reader id l'.
Proof.
  intros H Hn. unfold drop_reader. rewrite filter_app. f_equal.
  induction H as [|[i f] l Hi _ IH]; [reflexivity|].
  cbn in *. destruct (Nat.eqb_spec i id); [lia|]. cbn. now rewrite IH.
Qed.

Lemma drop_reader_keeps (P : nat * File -> Prop) (id : nat)
    (l : list (nat * File)) :
  Forall P l -> Forall P (drop_reader id l).
Proof.
  intros H. apply Forall_forall. intros x Hx.
  apply filter_In in Hx as [Hx _].
  revert x Hx. now apply Forall_forall.
Qed.

Lemma step_numbered (s : state) (e : event) :
  Forall (fun p => fst p < next_url s) (readers s) ->
  Forall (fun p => fst p < next_url (step s e)) (readers (step s e)).
Proof.
  intros H. destruct e as [i files|id|id| | |]; unfold step.
  - destruct (inputs_shown (render s)) eqn:Hs; [|exact H].
    destruct files as [|f r]; [exact H|].
    destruct i; cbn; apply Forall_app; split;
      try (eapply Forall_impl; [|exact H]; cbn; intros; lia);
      repeat constructor.
  - destruct (find_reader id (readers s)); [|exact H].
    cbn. now apply drop_reader_keeps.
  - destruct (find_reader id (readers s)); [|exact H].
    cbn. now apply drop_reader_keeps.
  - destruct s as [pv im ld fr cr rd nx ef]; cbn in *.
    destruct pv; [|exact H]. destruct fr, cr; exact H.
  - destruct (submit_enabled s); [|exact H].
    unfold handleSubmit. destruct (imageData s); exact H.
  - destruct (skip_enabled s); exact H.
Qed.

Lemma reachable_numbered (s : state) :
  reachable s -> Forall (fun p => fst p < next_url s) (readers s).
Proof.
  intros [evs <-]. induction evs as [|e evs IH] using rev_ind.
  - constructor.
  - rewrite run_snoc. now apply step_numbered.
Qed.

(** *** Overlapping selections *)

(** The state after [f1] was chosen, removed and [f2] chosen, both
    readers still running. *)
Lemma two_selections (s : state) (f1 f2 : File) :
  preview s = None ->
  run s [Change Camera [f1]; ClickRemove; Change Gallery [f2]] =
  {| preview := Some (S (next_url s)); imageData := None; loading := true;
     fileInputRef := None; cameraInputRef := None;
     readers := readers s ++ [(next_url s, f1); (S (next_url s), f2)];
     next_url := S (S (next_url s)); effects := effects s |}.
Proof.
  intros Hp. cbn [run fold_left].
  rewrite (step_change_file s Camera f1 [] Hp).
  rewrite (step_remove _ (next_url s)) by reflexivity.
  rewrite step_change_file by reflexivity. cbn.
  now rewrite <- app_assoc.
Qed.

(** Simplifies [find_reader] and [drop_reader] on the readers of a
    state that extends numbered readers by the readers [a] and [S a]. *)
Ltac tidy_readers a Hr Hab :=
  repeat first
    [ progress cbn [readers preview imageData loading fileInputRef
                    cameraInputRef next_url effects]
    | rewrite (drop_reader_later _ _ a a Hr (le_n _))
    | rewrite (drop_reader_later _ _ a (S a) Hr (le_S _ _ (le_n _)))
    | rewrite (find_reader_later _ _ a a Hr (le_n _))
    | rewrite (find_reader_later _ _ a (S a) Hr (le_S _ _ (le_n _)))
    | rewrite Nat.eqb_refl
    | rewrite (proj1 Hab)
    | rewrite (proj2 Hab)
    | progress cbn [find_reader drop_reader filter fst negb] ].

(** Fires the innermost pending [ReaderLoad] of the goal. *)
Ltac fire_reader a Hr Hab :=
  match goal with
  | |- context [step ?st (ReaderLoad ?id)] =>
      lazymatch st with
      | context [step] => fail
      | _ => erewrite (step_load st id);
             [| tidy_readers a Hr Hab; reflexivity ]
      end
  end.

(** C1, as the specification has it, fails: when the reader of the
    first file fires after the reader of the second, the payload of the
    first file is what stays. *)
Lemma stale_encode_applied : ~ last_write_wins.
Proof.
  intros H. specialize (H Samples.hi_png Samples.man_jpg true).
  vm_compute in H. discriminate.
Qed.

(** C1 (amended): of two selections whose encodes overlap, the payload
    finally stored is that of the encode that completes last: the second
    file's when its reader fires last, the first file's, shown under the
    preview of the second file, when the first reader fires last.  No
    completion is set aside as stale. *)
Theorem last_completion_wins (s : state) (f1 f2 : File) :
  reachable s -> preview s = None ->
  imageData (overlapped s f1 f2 false) = Some (payload_of f2)
  /\ imageData (overlapped s f1 f2 true) = Some (payload_of f1)
  /\ preview (overlapped s f1 f2 true) = Some (S (next_url s))
  /\ readers (overlapped s f1 f2 true) = readers s.
Proof.
  intros Hr Hp. apply reachable_numbered in Hr.
  unfold overlapped. rewrite !run_app, !(two_selections s f1 f2 Hp).
  set (a := next_url s) in *.
  assert (Hab : Nat.eqb a (S a) = false /\ Nat.eqb (S a) a = false)
    by (split; apply Nat.eqb_neq; lia).
  cbn [run fold_left].
  repeat split; do 2 fire_reader a Hr Hab; tidy_readers a Hr Hab;
    try reflexivity.
  apply app_nil_r.
Qed.

Lemma last_completion_wins_witness :
  imageData (overlapped init Samples.hi_png Samples.man_jpg false)
  = Some (payload_of Samples.man_jpg)
  /\ imageData (overlapped init Samples.hi_png Samples.man_jpg true)
     = Some (payload_of Samples.hi_png)
  /\ preview (overlapped init Samples.hi_png Samples.man_jpg true) = Some 1
  /\ readers (overlapped init Samples.hi_png Samples.man_jpg true) = [].
Proof.
  apply (last_completion_wins init Samples.hi_png Samples.man_jpg).
  - exists []. reflexivity.
  - reflexivity.
Defined.

(** *** A selection whose read fails *)

(** C5, as the specification has it, fails: the payload of an earlier
    file, applied after that file was removed, is still there when the
    read of the next file fails, and it can be submitted. *)
Lemma payload_survives_failure : ~ failure_leaves_no_payload.
Proof.
  intros H.
  specialize (H (run init [Change Camera [Samples.hi_png]; ClickRemove;
                           ReaderLoad 0])
                Gallery Samples.man_jpg (ex_intro _ _ eq_refl) eq_refl).
  vm_compute in H. discriminate.
Qed.

(** C5 (amended): when the read of a selected file fails, nothing is
    thrown: the error goes to [console.error] once, no callback is
    called, the loading flag is cleared, the preview of the failed file
    stays, and the payload is what it was before the selection; if there
    was none, there is none, and neither the submit button nor
    [handleSubmit] submits anything. *)
Theorem failure_is_swallowed (s : state) (i : surface) (f : File) :
  reachable s -> preview s = None ->
  let s' := failed_selection s i f in
  effects s' = effects s ++ [ConsoleError "Failed to process image:"]
  /\ loading s' = false
  /\ preview s' = Some (next_url s)
  /\ imageData s' = imageData s
  /\ readers s' = readers s
  /\ (imageData s = None ->
      submit_enabled s' = false /\ handleSubmit s' = s').
Proof.
  intros Hr Hp. apply reachable_numbered in Hr.
  unfold failed_selection. cbn [run fold_left].
  rewrite (step_change_file s i f [] Hp).
  erewrite step_error; cycle 1.
  { cbn [readers]. rewrite (find_reader_later _ _ _ _ Hr (le_n _)).
    cbn. now rewrite Nat.eqb_refl. }
  cbn [effects loading preview imageData readers].
  repeat split.
  - rewrite (drop_reader_later _ _ _ _ Hr (le_n _)).
    cbn. rewrite Nat.eqb_refl. cbn. apply app_nil_r.
  - unfold submit_enabled, render; cbn. now rewrite H.
  - unfold handleSubmit; cbn. now rewrite H.
Qed.

Lemma failure_is_swallowed_witness :
  let s' := failed_selection init Gallery Samples.hi_png in
  effects s' = [ConsoleError "Failed to process image:"]
  /\ loading s' = false
  /\ preview s' = Some 0
  /\ imageData s' = None
  /\ readers s' = []
  /\ submit_enabled s' = false /\ handleSubmit s' = s'.
Proof.
  destruct (failure_is_swallowed init Gallery Samples.hi_png
              (ex_intro _ [] eq_refl) eq_refl)
    as (H1 & H2 & H3 & H4 & H5 & H6).
  destruct (H6 eq_refl) as [H7 H8].
  exact (conj H1 (conj H2 (conj H3 (conj H4 (conj H5 (conj H7 H8)))))).
Defined.

(** *** The declared content type *)

Lemma or_else_empty (d : string) : or_else "" d = d.
Proof. reflexivity. Qed.

Lemma or_else_given (a d : string) : a <> "" -> or_else a d = a.
Proof.
  unfold or_else. now destruct (String.eqb_spec a "").
Qed.

(** C8: when the read of a file succeeds, the payload stored has
    [image/jpeg] as its type if the file declares none (the empty
    string), and the declared type otherwise. *)
Theorem mimeType_defaults_to_jpeg (s : state) (id : nat) (f : File) :
  find_reader id (readers s) = Some f ->
  exists d, imageData (step s (ReaderLoad id)) = Some d
    /\ base64 d = fileToBase64 f
    /\ (type f = "" -> mimeType d = "image/jpeg")
    /\ (type f <> "" -> mimeType d = type f).
Proof.
  intros H. rewrite (step_load s id f H). exists (payload_of f).
  cbn [imageData payload_of base64 mimeType]. repeat split.
  - intros ->. apply or_else_empty.
  - apply or_else_given.
Qed.

Lemma mimeType_defaults_to_jpeg_witness :
  (exists d, imageData (run init [Change Camera [Samples.untyped];
                                  ReaderLoad 0]) = Some d
     /\ mimeType d = "image/jpeg")
  /\ (exists d, imageData (run init [Change Gallery [Samples.hi_png];
                                     ReaderLoad 0]) = Some d
     /\ mimeType d = "image/png").
Proof.
  split.
  - destruct (mimeType_defaults_to_jpeg
                (run init [Change Camera [Samples.untyped]]) 0
                Samples.untyped eq_refl) as (d & Hd & _ & H & _).
    exists d. split; [exact Hd|exact (H eq_refl)].
  - destruct (mimeType_defaults_to_jpeg
                (run init [Change Gallery [Samples.hi_png]]) 0
                Samples.hi_png eq_refl) as (d & Hd & _ & _ & H).
    exists d. split; [exact Hd|]. apply H. discriminate.
Defined.

(** *** Preview, payload and the submit button *)

(** C3, as the specification has it, fails: when a file is removed
    while it is being encoded, its payload arrives afterwards and is
    stored although there is no preview. *)
Lemma payload_without_preview :
  ~ (forall s, reachable s -> pending_image_invariant s).
Proof.
  intros H.
  destruct (H (run init [Change Camera [Samples.hi_png]; ClickRemove;
                         ReaderLoad 0])
              (ex_intro _ _ eq_refl)) as [[Hpv _] _].
  destruct (Hpv eq_refl) as [Hpv' _]. vm_compute in Hpv'. discriminate.
Qed.

Lemma idle_snoc (l : list (nat * File)) (x : nat * File) :
  match l ++ [x] with [] => true | _ :: _ => false end = false.
Proof. now destruct l. Qed.

Lemma step_keeps_busy (s : state) (e : event) :
  (loading s = true -> idle s = false) ->
  loading (step s e) = true -> idle (step s e) = false.
Proof.
  destruct s as [pv im ld fr cr rd nx ef]. unfold idle. cbn [loading readers].
  intros H. destruct e as [i files|id|id| | |]; unfold step.
  - cbn. destruct pv; [exact H|]. cbn.
    destruct files as [|f r]; [destruct i; exact H|].
    destruct i; cbn; intros _; apply idle_snoc.
  - cbn [readers]. destruct (find_reader id rd); [|exact H]. discriminate.
  - cbn [readers]. destruct (find_reader id rd); [|exact H]. discriminate.
  - cbn. destruct pv; [|exact H]. destruct fr, cr; exact H.
  - destruct (submit_enabled _); [|exact H].
    unfold handleSubmit; cbn. destruct im; exact H.
  - destruct (skip_enabled _); exact H.
Qed.

Lemma loading_means_busy (evs : list event) :
  loading (run init evs) = true -> idle (run init evs) = false.
Proof.
  induction evs as [|e evs IH] using rev_ind; [discriminate|].
  rewrite run_snoc. now apply step_keeps_busy.
Qed.

Lemma orderly_init : orderly init.
Proof. left. cbn. intuition discriminate. Qed.

Lemma orderly_step (s : state) (e : event) :
  orderly s -> is_reader_event e || idle s = true -> orderly (step s e).
Proof.
  destruct s as [pv im ld fr cr rd nx ef]. unfold orderly, idle.
  cbn [readers loading imageData preview].
  intros [(-> & -> & Him) | (id0 & f0 & -> & -> & -> & Hpv)] He.
  - (* nothing in flight *)
    destruct e as [i files|id|id| | |]; unfold step;
      cbn [readers find_reader].
    + cbn. destruct pv as [u|]; [left; auto|]. cbn.
      destruct im as [d|]; [specialize (Him eq_refl); discriminate|].
      destruct files as [|f r].
      * destruct i; left; cbn; auto.
      * destruct i; right; exists nx, f; cbn; auto.
    + left; auto.
    + left; auto.
    + cbn. destruct pv as [u|]; [|left; auto].
      destruct fr, cr; left; cbn; intuition discriminate.
    + destruct (submit_enabled _); [|left; auto].
      unfold handleSubmit; cbn. destruct im; left; cbn; auto.
    + destruct (skip_enabled _); left; cbn; auto.
  - (* one reader in flight: only it can act *)
    destruct e as [i files|id|id| | |]; cbn in He; try discriminate;
      unfold step; cbn [readers find_reader].
    + destruct (Nat.eqb_spec id0 id) as [->|Hne].
      * left. cbn. rewrite Nat.eqb_refl. cbn. auto.
      * right. exists id0, f0. auto.
    + destruct (Nat.eqb_spec id0 id) as [->|Hne].
      * left. cbn. rewrite Nat.eqb_refl. cbn. intuition discriminate.
      * right. exists id0, f0. auto.
Qed.

Lemma orderly_run (evs : list event) (s : state) :
  orderly s -> serial_from s evs = true -> orderly (run s evs).
Proof.
  revert s. induction evs as [|e evs IH]; intros s Hs Hser; [exact Hs|].
  cbn in Hser. apply andb_prop in Hser as [He Hser].
  cbn [run fold_left]. apply IH; [now apply orderly_step|exact Hser].
Qed.

(** C3 (amended): in every reachable state the submit action is enabled
    exactly when preview and payload are both present and the loading
    flag is clear, and a set loading flag means that an encode is in
    flight.  In a state reached without overlap (the user acts only
    while no encode is in flight) a present payload comes with a present
    preview and no encode in flight, so that an enabled submit action
    means that no encode is in flight. *)
Theorem submit_gate (evs : list event) :
  let s := run init evs in
  (submit_enabled s = true <->
   truthy (preview s) = true /\ truthy (imageData s) = true
   /\ loading s = false)
  /\ (loading s = true -> idle s = false)
  /\ (serial evs = true ->
      (truthy (imageData s) = true ->
       truthy (preview s) = true /\ idle s = true)
      /\ (submit_enabled s = true -> idle s = true)).
Proof.
  cbv zeta. split; [apply submit_enabled_iff|].
  split; [apply loading_means_busy|].
  intros Hser. pose proof (orderly_run evs init orderly_init Hser) as Ho.
  unfold idle.
  destruct Ho as [(Hr & _ & Him) | (id & f & _ & _ & Him & _)].
  - rewrite Hr. split; [auto|reflexivity].
  - rewrite Him. split; [discriminate|].
    intros H. apply submit_enabled_iff in H as (_ & H & _).
    rewrite Him in H. discriminate.
Qed.

Lemma submit_gate_witness :
  serial [Change Gallery [Samples.hi_png]; ReaderLoad 0] = true
  /\ truthy (preview Samples.ready) = true
  /\ idle Samples.ready = true.
Proof.
  split; [reflexivity|].
  destruct (submit_gate [Change Gallery [Samples.hi_png]; ReaderLoad 0])
    as (_ & _ & H).
  destruct (H eq_refl) as [H1 _]. exact (H1 eq_refl).
Defined.

End Capture.

(** ** The encoder ([fileToBase64]) *)

Module Encoder.
Import ImageUpload.

Lemma or_else_no_comma (a : string) :
  Js.includes "," a = false ->
  Js.includes "," (or_else a "application/octet-stream") = false.
Proof.
  unfold or_else. now destruct (String.eqb a "").
Qed.

(** The data URL of a file, cut at the comma that ends its header. *)
Lemma readAsDataURL_shape (f : File) :
  readAsDataURL f =
  (("data:" ++ or_else (type f) "application/octet-stream") ++ ";base64")
  ++ String "," (Base64.encode (content f)).
Proof.
  unfold readAsDataURL. now rewrite !JsFacts.append_assoc.
Qed.

(** X1: for a file whose declared type has no comma, the encoder returns
    the base64 text of the content and nothing of the header: it decodes
    to the bytes of the file, and holds none of the characters [,], [:]
    and [;] that delimit the header. *)
Lemma fileToBase64_sound (f : File) :
  Js.includes "," (type f) = false ->
  fileToBase64 f = Some (Base64.encode (content f))
  /\ (forall d, fileToBase64 f = Some d ->
        Base64.decode d = Some (content f)
        /\ Js.includes "," d = false /\ Js.includes ":" d = false
        /\ Js.includes ";" d = false).
Proof.
  intros Hty.
  assert (H : fileToBase64 f = Some (Base64.encode (content f))).
  { unfold fileToBase64, fileToBase64_onload.
    rewrite readAsDataURL_shape, JsFacts.split_once; [reflexivity| |].
    - rewrite !JsFacts.includes_app, (or_else_no_comma _ Hty). reflexivity.
    - now apply Base64Facts.encode_excludes. }
  split; [exact H|]. intros d Hd. rewrite H in Hd. injection Hd as <-.
  split; [apply Base64Facts.decode_encode|].
  repeat split; now apply Base64Facts.encode_excludes.
Qed.

Lemma fileToBase64_sound_example :
  fileToBase64 Samples.man_jpg = Some "TWFu"
  /\ Base64.decode "TWFu" = Some (content Samples.man_jpg).
Proof.
  destruct (fileToBase64_sound Samples.man_jpg eq_refl) as [H1 H2].
  split; [exact H1|]. apply (H2 "TWFu" H1).
Defined.

(** C6 fails on a file whose declared type has a comma: the data URL
    then has a comma inside its header, [split(',')[1]] is a piece of
    the header, and what is stored is not the base64 text of the
    content (which is [aGk=]) and does not decode. *)
Theorem comma_in_type_breaks_encoder :
  readAsDataURL Samples.two_types = "data:image/png,image/jpeg;base64,aGk="
  /\ fileToBase64 Samples.two_types = Some "image/jpeg;base64"
  /\ Base64.encode (content Samples.two_types) = "aGk="
  /\ Base64.decode "image/jpeg;base64" = None
  /\ ~ encoder_strips_prefix.
Proof.
  repeat split; try reflexivity.
  intros H. specialize (H Samples.two_types). vm_compute in H. discriminate.
Qed.

End Encoder.

(** ** The response logger *)

Module Logger.
Import ApiLogger.
Local Open Scope list_scope.

Section Facts.

Variable utf8_encode : string -> list byte.
Variable utf8_decode : list byte -> error + string.
Variable json_pretty : string -> option string.
Variable timestamp : string.
Variable write_result end_result :
  list wire_call -> jsval -> list jsval -> error + jsval.

Abbreviation capture := (ApiLogger.capture utf8_encode).
Abbreviation log_response :=
  (ApiLogger.log_response utf8_decode json_pretty timestamp).
Abbreviation wrapped_write :=
  (ApiLogger.wrapped_write utf8_encode write_result).
Abbreviation wrapped_end :=
  (ApiLogger.wrapped_end utf8_encode utf8_decode json_pretty timestamp
     end_result).
Abbreviation middleware := ApiLogger.middleware.
Abbreviation perform :=
  (ApiLogger.perform utf8_encode utf8_decode json_pretty timestamp
     write_result end_result).
Abbreviation handler :=
  (ApiLogger.handler utf8_encode utf8_decode json_pretty timestamp
     write_result end_result).
Abbreviation serve_logged :=
  (ApiLogger.serve_logged utf8_encode utf8_decode json_pretty timestamp
     write_result end_result).
Abbreviation serve_plain :=
  (ApiLogger.serve_plain utf8_encode utf8_decode json_pretty timestamp
     write_result end_result).

(** Capturing a data chunk cannot fail and touches [chunks] only. *)
Lemma capture_data (chunk : jsval) (w : world) :
  is_data chunk = true ->
  exists cs, capture chunk w = (inr tt, set_chunks cs w).
Proof.
  destruct w as [lw lc co ch st rw re nx wi].
  destruct chunk as [| |s|b|id|b|]; try discriminate; intros _;
    unfold ApiLogger.capture; cbn [truthy].
  - now exists ch.
  - now exists ch.
  - destruct (negb (String.eqb s "")); [|now exists ch].
    now exists (ch ++ [utf8_encode s]).
  - now exists (ch ++ [b]).
Qed.

(** The [try] block either fails, leaving everything as it was, or
    appends one entry to the log and one line to the console. *)
Lemma log_response_cases (req : request) (w : world) :
  (exists err, log_response req w = (inl err, w))
  \/ (log_writable w = true /\
      exists entry line,
        log_response req w =
        (inr tt, set_console (console w ++ [Log line])
                   (set_log (log_content w ++ entry) w))).
Proof.
  unfold ApiLogger.log_response, bind, lift, get_chunks, get_statusCode,
    logToFile, appendFileSync, console_log.
  destruct (utf8_decode (List.concat (chunks w))) as [err|body].
  - left. now exists err.
  - destruct (log_writable w) eqn:Hw.
    + right. split; [reflexivity|]. eexists _, _. reflexivity.
    + left. eexists. reflexivity.
Qed.

Lemma log_response_unwritable (req : request) (w : world) :
  log_writable w = false -> exists err, log_response req w = (inl err, w).
Proof.
  intros Hw. destruct (log_response_cases req w) as [H | [H _]];
    [exact H|congruence].
Qed.

(** A capture that succeeds changes [chunks] only. *)
Lemma capture_frame (chunk : jsval) (w w1 : world) :
  capture chunk w = (inr tt, w1) -> exists cs, w1 = set_chunks cs w.
Proof.
  destruct w as [lw lc co ch st rw re nx wi].
  unfold ApiLogger.capture. destruct (truthy chunk).
  - destruct chunk as [| |s|b|id|b|]; cbn; intros H;
      try discriminate; injection H as <-; eexists; reflexivity.
  - intros H. injection H as <-. now exists ch.
Qed.

(** The failure of a [try] block leaves the world as it was. *)
Lemma log_response_failure (req : request) (w w' : world) (err : error) :
  log_response req w = (inl err, w') -> w' = w.
Proof.
  intros H. destruct (log_response_cases req w)
    as [[e He] | [_ (entry & line & Hok)]]; congruence.
Qed.

(** Inside the [try] block: when building or appending the log entry
    fails with [err] (the
    body cannot be decoded, the log file cannot be written), the wrapped
    [end] catches the error, reports it with [console.error], leaves the
    log file as it was, and then calls the original [end] once with the
    chunk and the arguments it was given, returning (or throwing) what
    that call returns (or throws). *)
Theorem logging_failure_contained (req : request) (chunk : jsval)
    (args : list jsval) (w w1 w2 : world) (err : error) :
  capture chunk w = (inr tt, w1) ->
  log_response req w1 = (inl err, w2) ->
  let out := wrapped_end req chunk args w in
  fst out = end_result (wire w) chunk args
  /\ wire (snd out) = wire w ++ [End chunk args]
  /\ console (snd out)
     = console w ++ [Error "Failed to log API response:" err]
  /\ log_content (snd out) = log_content w.
Proof.
  intros Hc He. cbv zeta.
  pose proof (log_response_failure _ _ _ _ He) as ->.
  destruct (capture_frame _ _ _ Hc) as [cs ->].
  assert (E : wrapped_end req chunk args w =
              (end_result (wire w) chunk args,
               set_wire (wire w ++ [End chunk args])
                 (set_console
                    (console w ++ [Error "Failed to log API response:" err])
                    (set_chunks cs w)))).
  { unfold ApiLogger.wrapped_end, bind, try_catch.
    rewrite Hc, He. reflexivity. }
  rewrite E. repeat split.
Qed.

(** In particular, with a log file that cannot be written. *)
Lemma unwritable_log_contained (req : request) (chunk : jsval)
    (args : list jsval) (w : world) :
  is_data chunk = true -> log_writable w = false ->
  let out := wrapped_end req chunk args w in
  fst out = end_result (wire w) chunk args
  /\ wire (snd out) = wire w ++ [End chunk args]
  /\ exists err,
       console (snd out)
       = console w ++ [Error "Failed to log API response:" err].
Proof.
  intros Hd Hw. destruct (capture_data chunk w Hd) as [cs Hc].
  destruct (log_response_unwritable req (set_chunks cs w) Hw) as [err He].
  cbv zeta. unfold ApiLogger.wrapped_end, bind, try_catch.
  rewrite Hc, He. cbn. split; [reflexivity|]. split; [reflexivity|].
  now exists err.
Qed.

(** *** What reaches the response *)

Lemma wrapped_write_outcome (req : request) (chunk : jsval)
    (args : list jsval) (w : world) :
  is_data chunk = true ->
  exists cs,
    wrapped_write req chunk args w =
    (write_result (wire w) chunk args,
     set_wire (wire w ++ [Write chunk args]) (set_chunks cs w)).
Proof.
  intros Hd. destruct (capture_data chunk w Hd) as [cs Hc]. exists cs.
  unfold ApiLogger.wrapped_write, bind. rewrite Hc. reflexivity.
Qed.

Lemma wrapped_end_outcome (req : request) (chunk : jsval)
    (args : list jsval) (w : world) :
  is_data chunk = true ->
  exists w',
    wrapped_end req chunk args w =
    (end_result (wire w) chunk args,
     set_wire (wire w ++ [End chunk args]) w')
    /\ res_write w' = res_write w /\ res_end w' = res_end w.
Proof.
  intros Hd. destruct (capture_data chunk w Hd) as [cs Hc].
  unfold ApiLogger.wrapped_end, bind, try_catch. rewrite Hc.
  destruct (log_response_cases req (set_chunks cs w))
    as [[err He] | [_ (entry & line & Hok)]].
  - rewrite He. eexists. split; [reflexivity|]. split; reflexivity.
  - rewrite Hok. eexists. split; [reflexivity|]. split; reflexivity.
Qed.

(** A request that is not an API call is passed on untouched. *)
Lemma middleware_passes_through (req : request) (w : world) :
  isApiCall req = false -> middleware req w = next w.
Proof. unfold ApiLogger.middleware. now intros ->. Qed.

Lemma handler_cons (c : res_call) (cs : list res_call) (w : world) :
  handler (c :: cs) w =
  match perform c w with
  | (inr v, w') =>
      match handler cs w' with
      | (inr vs, w'') => (inr (v :: vs), w'')
      | (inl e, w'') => (inl e, w'')
      end
  | (inl e, w') => (inl e, w')
  end.
Proof.
  cbn [ApiLogger.handler]. unfold bind, ret.
  destruct (perform c w) as [[e|v] w']; [reflexivity|].
  destruct (handler cs w') as [[e|vs] w'']; reflexivity.
Qed.

(** With the wrappers installed, a handler that passes data chunks
    gets the same results and sends the same calls to the response as
    without them. *)
Lemma handler_same_wire (req : request) (cs : list res_call) :
  forall w1 w2,
    res_write w1 = Wrapped req -> res_end w1 = Wrapped req ->
    res_write w2 = Original -> res_end w2 = Original ->
    wire w1 = wire w2 ->
    forallb data_call cs = true ->
    fst (handler cs w1) = fst (handler cs w2)
    /\ wire (snd (handler cs w1)) = wire (snd (handler cs w2)).
Proof.
  induction cs as [|c cs IH]; intros w1 w2 Hw1 He1 Hw2 He2 Hwire Hcs.
  - split; [reflexivity|exact Hwire].
  - cbn [forallb] in Hcs. apply andb_prop in Hcs as [Hc Hcs].
    rewrite !handler_cons.
    destruct c as [chunk args|chunk args];
      cbn [ApiLogger.perform data_call] in *.
    + unfold call_write. rewrite Hw1, Hw2.
      destruct (wrapped_write_outcome req chunk args w1 Hc) as [ch ->].
      unfold originalWrite. rewrite Hwire.
      destruct (write_result (wire w2) chunk args) as [err|v];
        [split; reflexivity|].
      specialize (IH (set_wire (wire w2 ++ [Write chunk args])
                        (set_chunks ch w1))
                     (set_wire (wire w2 ++ [Write chunk args]) w2)
                     Hw1 He1 Hw2 He2 eq_refl Hcs) as [IHr IHw].
      destruct (handler cs (set_wire _ (set_chunks ch w1))) as [[e1|v1] u1],
               (handler cs (set_wire _ w2)) as [[e2|v2] u2];
        cbn in *; split; congruence.
    + unfold call_end. rewrite He1, He2.
      destruct (wrapped_end_outcome req chunk args w1 Hc)
        as (w' & -> & Hw' & He').
      unfold originalEnd. rewrite Hwire.
      destruct (end_result (wire w2) chunk args) as [err|v];
        [split; reflexivity|].
      specialize (IH (set_wire (wire w2 ++ [End chunk args]) w')
                     (set_wire (wire w2 ++ [End chunk args]) w2)).
      destruct IH as [IHr IHw]; cbn; try congruence.
      destruct (handler cs (set_wire _ w')) as [[e1|v1] u1],
               (handler cs (set_wire _ w2)) as [[e2|v2] u2];
        cbn in *; split; congruence.
Qed.

(** X10: the logger is transparent for handlers that pass data chunks
    (strings, buffers, or nothing) to [write] and [end]: with it
    installed they get the same results, or the same exception, and the
    same calls reach the response in the same order. *)
Lemma logger_transparent_on_data (req : request) (cs : list res_call)
    (w : world) :
  res_write w = Original -> res_end w = Original ->
  forallb data_call cs = true ->
  fst (serve_logged req cs w) = fst (serve_plain cs w)
  /\ wire (snd (serve_logged req cs w)) = wire (snd (serve_plain cs w)).
Proof.
  intros Hw He Hcs. unfold ApiLogger.serve_logged, ApiLogger.serve_plain, bind.
  destruct (isApiCall req) eqn:Hapi.
  - unfold ApiLogger.middleware. rewrite Hapi. cbn [negb].
    unfold next. now apply (handler_same_wire req).
  - rewrite (middleware_passes_through req w Hapi). split; reflexivity.
Qed.

(** C10 fails when [res.end] is called with a callback in place of
    data, as Node allows ([end(callback)]): the callback is truthy and
    not a buffer, [Buffer.from] throws a [TypeError] before the original
    [end] is reached, so nothing is sent to the response, whereas without
    the logger the call ends the response. *)
Theorem end_with_callback_not_forwarded (cb : nat) (args : list jsval)
    (writable : bool) :
  let cs := [CallEnd (JFunction cb) args] in
  let logged := serve_logged Platform.health cs (fresh writable) in
  let plain := serve_plain cs (fresh writable) in
  (exists msg, fst logged = inl (TypeError msg))
  /\ wire (snd logged) = []
  /\ console (snd logged) = []
  /\ wire (snd plain) = [End (JFunction cb) args]
  /\ fst plain = match end_result [] (JFunction cb) args with
                 | inl e => inl e
                 | inr v => inr [v]
                 end.
Proof.
  cbv zeta. split; [eexists; reflexivity|].
  split; [reflexivity|]. split; [reflexivity|].
  unfold ApiLogger.serve_plain, bind, next. cbn.
  unfold call_end, originalEnd, bind. cbn.
  destruct (end_result [] (JFunction cb) args); split; reflexivity.
Qed.

(** C9 fails when the chunk given to [res.end] cannot be captured, as
    with a callback: [Buffer.from] throws while the body for the entry
    is being collected, before the [try] block is entered, so the error
    is not caught, nothing is reported on the console, and the original
    [end] is not called: the world is left exactly as it was.  The
    original [end], called directly, takes the call. *)
Theorem capture_failure_escapes (req : request) (cb : nat)
    (args : list jsval) (w : world) :
  let out := wrapped_end req (JFunction cb) args w in
  (exists msg, fst out = inl (TypeError msg))
  /\ snd out = w
  /\ wire (snd out) = wire w
  /\ console (snd out) = console w
  /\ wire (snd (originalEnd end_result (JFunction cb) args w))
     = wire w ++ [End (JFunction cb) args].
Proof.
  cbv zeta. unfold ApiLogger.wrapped_end, ApiLogger.capture, bind, lift.
  cbn [truthy Buffer_from].
  split; [eexists; reflexivity|]. repeat split.
Qed.

End Facts.

Lemma logging_failure_contained_witness :
  let out := wrapped_end Platform.utf8_encode Platform.utf8_decode
               Platform.json_pretty Platform.timestamp Platform.end_result
               Platform.health (JString "ok") [] (fresh false) in
  fst out = inr JThis
  /\ wire (snd out) = [End (JString "ok") []]
  /\ console (snd out)
     = [Error "Failed to log API response:"
          (SystemError "EACCES: permission denied, open 'api-logs.txt'")]
  /\ log_content (snd out) = "".
Proof.
  apply (logging_failure_contained Platform.utf8_encode
           Platform.utf8_decode Platform.json_pretty Platform.timestamp
           Platform.end_result Platform.health (JString "ok") []
           (fresh false)
           (snd (capture Platform.utf8_encode (JString "ok") (fresh false)))
           (snd (capture Platform.utf8_encode (JString "ok") (fresh false)))
           (SystemError "EACCES: permission denied, open 'api-logs.txt'"));
    reflexivity.
Defined.

(** The logger is not transparent for every handler. *)
Lemma logger_not_transparent : ~ transparent.
Proof.
  intros H.
  specialize (H Platform.utf8_encode Platform.utf8_decode
                Platform.json_pretty Platform.timestamp
                Platform.write_result Platform.end_result
                Platform.health [CallEnd (JFunction 0) []] true).
  destruct H as [H _]. vm_compute in H. discriminate.
Qed.

Lemma logger_transparent_on_data_example :
  wire (snd (serve_logged Platform.utf8_encode Platform.utf8_decode
               Platform.json_pretty Platform.timestamp
               Platform.write_result Platform.end_result Platform.health
               [CallWrite (JString "ok") []; CallEnd JUndefined []]
               (fresh false)))
  = [Write (JString "ok") []; End JUndefined []].
Proof.
  rewrite (proj2 (logger_transparent_on_data
                    Platform.utf8_encode Platform.utf8_decode
                    Platform.json_pretty Platform.timestamp
                    Platform.write_result Platform.end_result Platform.health
                    [CallWrite (JString "ok") []; CallEnd JUndefined []]
                    (fresh false) eq_refl eq_refl eq_refl)).
  reflexivity.
Defined.

End Logger.

(** ** The capture component: whole flows *)

Module Flow.
Import ImageUpload.
Local Open Scope list_scope.

(** X2: a selection whose read succeeds ends in the Ready state: the
    preview is the URL made for the file, the payload is the one encoded
    from it, the loading flag is clear, the submit button is enabled,
    and a click on it calls [onSubmit] once with that payload. *)
Theorem selection_completes (s : state) (i : surface) (f : File) :
  reachable s -> preview s = None ->
  let s' := run s [Change i [f]; ReaderLoad (next_url s)] in
  preview s' = Some (next_url s)
  /\ imageData s' = Some (payload_of f)
  /\ loading s' = false
  /\ readers s' = readers s
  /\ submit_enabled s' = true
  /\ effects (step s' ClickSubmit) = effects s ++ [OnSubmit (payload_of f)].
Proof.
  intros Hr Hp. apply Capture.reachable_numbered in Hr.
  cbn [run fold_left].
  rewrite (Capture.step_change_file s i f [] Hp).
  erewrite Capture.step_load; cycle 1.
  { cbn [readers]. rewrite (Capture.find_reader_later _ _ _ _ Hr (le_n _)).
    cbn. now rewrite Nat.eqb_refl. }
  cbn [preview imageData loading readers].
  split; [reflexivity|]. split; [reflexivity|]. split; [reflexivity|].
  split.
  - rewrite (Capture.drop_reader_later _ _ _ _ Hr (le_n _)).
    cbn. rewrite Nat.eqb_refl. cbn. apply app_nil_r.
  - split; reflexivity.
Qed.

Lemma selection_completes_witness :
  let s' := run init [Change Gallery [Samples.man_jpg]; ReaderLoad 0] in
  preview s' = Some 0
  /\ imageData s' = Some {| base64 := Some "TWFu"; mimeType := "image/jpeg" |}
  /\ loading s' = false
  /\ readers s' = []
  /\ submit_enabled s' = true
  /\ effects (step s' ClickSubmit)
     = [OnSubmit {| base64 := Some "TWFu"; mimeType := "image/jpeg" |}].
Proof.
  exact (selection_completes init Gallery Samples.man_jpg
           (ex_intro _ [] eq_refl) eq_refl).
Defined.

Lemma loading_disables (s : state) :
  loading s = true -> submit_enabled s = false /\ skip_enabled s = false.
Proof.
  unfold submit_enabled, skip_enabled, render; cbn. intros ->.
  destruct (truthy (preview s) && truthy (imageData s)); split; reflexivity.
Qed.

(** X3: while the loading flag is set no click can reach a callback:
    any sequence of clicks on the submit and skip buttons leaves the
    state, and with it the list of calls made, exactly as it was. *)
Theorem loading_blocks_callbacks (s : state) (evs : list event) :
  loading s = true -> forallb is_action_click evs = true -> run s evs = s.
Proof.
  intros Hl. induction evs as [|e evs IH]; [reflexivity|].
  cbn [forallb]. intros H. apply andb_prop in H as [He Hevs].
  destruct (loading_disables s Hl) as [Hsub Hskip].
  cbn [run fold_left]. fold (run (step s e) evs).
  assert (Hs : step s e = s).
  { destruct e; try discriminate; unfold step; now rewrite ?Hsub, ?Hskip. }
  rewrite Hs. exact (IH Hevs).
Qed.

Lemma loading_blocks_callbacks_witness :
  run Samples.busy [ClickSkip; ClickSubmit; ClickSkip; ClickSkip]
  = Samples.busy.
Proof.
  apply (loading_blocks_callbacks Samples.busy); reflexivity.
Defined.

(** *** Where payloads come from *)

Lemma find_reader_In (id : nat) (l : list (nat * File)) (f : File) :
  find_reader id l = Some f -> In (id, f) l.
Proof.
  induction l as [|[i g] l IH]; [discriminate|]. cbn.
  destruct (Nat.eqb_spec i id) as [->|_].
  - intros H. injection H as ->. now left.
  - intros H. right. now apply IH.
Qed.

Lemma drop_reader_In (id : nat) (l : list (nat * File)) (x : nat * File) :
  In x (drop_reader id l) -> In x l.
Proof. unfold drop_reader. intros H. now apply filter_In in H. Qed.

Lemma submitted_emit (e : effect) (s : state) :
  submitted (emit e s)
  = submitted s ++ match e with OnSubmit p => [p] | _ => [] end.
Proof.
  unfold submitted, emit; cbn [effects].
  rewrite flat_map_app. cbn. now rewrite app_nil_r.
Qed.

Lemma from_selection_step (P Q : File -> Prop) (s : state) (e : event) :
  (forall f, P f -> Q f) ->
  (forall i f r, e = Change i (f :: r) -> Q f) ->
  from_selection P s -> from_selection Q (step s e).
Proof.
  intros HPQ He (Him & Hrd & Hsub).
  assert (Hkeep : from_selection Q s).
  { repeat split.
    - intros p Hp. destruct (Him p Hp) as (f & Hf & ->). eauto.
    - intros id f Hin. eauto.
    - intros p Hp. destruct (Hsub p Hp) as (f & Hf & ->). eauto. }
  pose proof Hkeep as (Him' & Hrd' & Hsub').
  destruct e as [i files|id|id| | |]; unfold step.
  - destruct (inputs_shown (render s)); [|exact Hkeep].
    destruct files as [|f r].
    + destruct i; exact Hkeep.
    + destruct i; (split; [exact Him'|split; [|exact Hsub']]);
        cbn; intros id g Hin; apply in_app_or in Hin as [Hin|[Hin|[]]];
        try (now eapply Hrd'; eauto);
        injection Hin as _ <-; eapply He; reflexivity.
  - destruct (find_reader id (readers s)) as [f|] eqn:Hf;
      [|exact Hkeep].
    apply find_reader_In in Hf.
    split; [|split; [|exact Hsub']]; cbn.
    + intros p Hp. injection Hp as <-. exists f. split; [eauto|reflexivity].
    + intros id' g Hin. apply drop_reader_In in Hin. eauto.
  - destruct (find_reader id (readers s)) as [f|] eqn:Hf;
      [|exact Hkeep].
    split; [exact Him'|split]; cbn.
    + intros id' g Hin. apply drop_reader_In in Hin. eauto.
    + intros p Hp. apply Hsub'.
      unfold submitted in *. cbn [effects emit setReaders] in Hp.
      rewrite flat_map_app in Hp. cbn in Hp. now rewrite app_nil_r in Hp.
  - destruct s as [pv im ld fr cr rd nx ef]; cbn in *.
    destruct pv; [|exact Hkeep].
    destruct fr, cr; (split; [discriminate|split; assumption]).
  - destruct (submit_enabled s); [|exact Hkeep].
    unfold handleSubmit. destruct (imageData s) as [d|] eqn:Hd;
      [|exact Hkeep].
    split; [|split].
    + cbn. rewrite Hd. exact Him'.
    + exact Hrd'.
    + intros p Hp. rewrite submitted_emit in Hp.
      apply in_app_or in Hp as [Hp|[<-|[]]]; [now apply Hsub'|].
      now apply Him'.
  - destruct (skip_enabled s); [|exact Hkeep].
    unfold onSkip. split; [exact Him'|split; [exact Hrd'|]].
    intros p Hp. rewrite submitted_emit, app_nil_r in Hp. now apply Hsub'.
Qed.

Lemma selected_snoc (evs : list event) (e : event) :
  selected (evs ++ [e]) = selected evs ++ selected [e].
Proof. unfold selected. apply flat_map_app. Qed.

Lemma from_selection_run (evs : list event) :
  from_selection (fun f => In f (selected evs)) (run init evs).
Proof.
  induction evs as [|e evs IH] using rev_ind.
  - repeat split; cbn; intros; try discriminate; contradiction.
  - rewrite Capture.run_snoc.
    apply (from_selection_step (fun f => In f (selected evs))); [| |exact IH].
    + intros f Hf. rewrite selected_snoc. apply in_or_app. now left.
    + intros i f r ->. rewrite selected_snoc. apply in_or_app. right.
      cbn. now left.
Qed.

(** X4: [onSubmit] is only ever called with the payload encoded from a
    file that was handed to one of the two inputs: whatever the order of
    events, every submitted payload is [payload_of f] for a selected
    [f]. *)
Theorem submitted_from_selected (evs : list event) (p : payload) :
  In (OnSubmit p) (effects (run init evs)) ->
  exists f, In f (selected evs) /\ p = payload_of f.
Proof.
  intros H. destruct (from_selection_run evs) as (_ & _ & Hsub).
  apply Hsub. unfold submitted. apply in_flat_map.
  exists (OnSubmit p). split; [exact H|now left].
Qed.

Lemma submitted_from_selected_witness :
  exists f,
    In f [Samples.man_jpg]
    /\ {| base64 := Some "TWFu"; mimeType := "image/jpeg" |} = payload_of f.
Proof.
  apply (submitted_from_selected
           [Change Gallery [Samples.man_jpg]; ReaderLoad 0; ClickSubmit]).
  cbn. now left.
Defined.

(** X5: a submitted payload never has an empty [mimeType], whatever
    type the file declared. *)
Theorem submitted_mimeType_nonempty (evs : list event) (p : payload) :
  In (OnSubmit p) (effects (run init evs)) -> mimeType p <> "".
Proof.
  intros H. destruct (from_selection_run evs) as (_ & _ & Hsub).
  destruct (Hsub p) as (f & _ & ->).
  { unfold submitted. apply in_flat_map.
    exists (OnSubmit p). split; [exact H|now left]. }
  cbn. unfold or_else.
  destruct (String.eqb_spec (type f) ""); [discriminate|assumption].
Qed.

Lemma submitted_mimeType_nonempty_witness :
  mimeType {| base64 := Some "TWE="; mimeType := "image/jpeg" |} <> "".
Proof.
  apply (submitted_mimeType_nonempty
           [Change Camera [Samples.untyped]; ReaderLoad 0; ClickSubmit]).
  cbn. now left.
Defined.

(** *** Submitting more than once *)

Lemma run_clicks_ready (n : nat) (p : payload) :
  forall s, submit_enabled s = true -> imageData s = Some p ->
    run s (repeat ClickSubmit n)
    = {| preview := preview s; imageData := imageData s;
         loading := loading s; fileInputRef := fileInputRef s;
         cameraInputRef := cameraInputRef s; readers := readers s;
         next_url := next_url s;
         effects := effects s ++ repeat (OnSubmit p) n |}.
Proof.
  induction n as [|n IH]; intros s Hen Hp.
  - cbn. rewrite app_nil_r. now destruct s.
  - cbn [repeat run fold_left]. fold (run (step s ClickSubmit) (repeat ClickSubmit n)).
    assert (Hs : step s ClickSubmit = emit (OnSubmit p) s).
    { unfold step. rewrite Hen. now apply Capture.handleSubmit_emits. }
    rewrite Hs, IH; [|exact Hen|exact Hp].
    cbn. now rewrite <- app_assoc.
Qed.

(** X6: nothing guards against a second submission: in the Ready state
    [n] clicks on the submit button call [onSubmit] [n] times with the
    same payload and leave preview, payload and loading flag as they
    are. *)
Theorem submit_repeats (s : state) (p : payload) (n : nat) :
  submit_enabled s = true -> imageData s = Some p ->
  let s' := run s (repeat ClickSubmit n) in
  effects s' = effects s ++ repeat (OnSubmit p) n
  /\ calls is_submit s' = calls is_submit s + n
  /\ preview s' = preview s /\ imageData s' = Some p
  /\ loading s' = loading s /\ submit_enabled s' = true.
Proof.
  intros Hen Hp. cbv zeta. rewrite (run_clicks_ready n p s Hen Hp).
  cbn [effects preview imageData loading]. repeat split; try assumption.
  unfold calls; cbn [effects]. rewrite filter_app, length_app. f_equal.
  clear. induction n as [|n IH]; [reflexivity|]. cbn. now rewrite IH.
Qed.

Lemma submit_repeats_witness :
  effects (run Samples.ready (repeat ClickSubmit 3))
  = repeat (OnSubmit {| base64 := Some "aGk="; mimeType := "image/png" |}) 3.
Proof.
  apply (submit_repeats Samples.ready
           {| base64 := Some "aGk="; mimeType := "image/png" |} 3);
    reflexivity.
Defined.

(** *** The inputs and the preview *)

Lemma rerender_refs (s : state) :
  (preview s = None ->
     fileInputRef (rerender s) <> None /\ cameraInputRef (rerender s) <> None)
  /\ (preview s <> None ->
     fileInputRef (rerender s) = None /\ cameraInputRef (rerender s) = None).
Proof.
  destruct s as [pv im ld fr cr rd nx ef]. cbn.
  destruct pv; cbn; split; intros H; try congruence.
  - split; reflexivity.
  - destruct fr, cr; split; discriminate.
Qed.

Lemma refs_follow_preview (evs : list event) :
  let s := run init evs in
  (preview s = None -> fileInputRef s <> None /\ cameraInputRef s <> None)
  /\ (preview s <> None -> fileInputRef s = None /\ cameraInputRef s = None).
Proof.
  cbv zeta. induction evs as [|e evs IH] using rev_ind.
  - cbn. split; [split; discriminate|congruence].
  - rewrite Capture.run_snoc. set (s := run init evs) in *.
    destruct e as [i files|id|id| | |]; unfold step.
    + destruct (inputs_shown (render s)); [|exact IH].
      assert (E : forall x, preview (rerender x) = preview x)
        by (now intros []).
      pose proof (rerender_refs (handleFileSelect files (choose i files s))).
      now rewrite !E.
    + destruct (find_reader id (readers s)); [|exact IH].
      match goal with |- context [rerender ?x] =>
        pose proof (rerender_refs x) as H;
        replace (preview (rerender x)) with (preview x) by (now destruct x)
      end. exact H.
    + destruct (find_reader id (readers s)); [|exact IH].
      match goal with |- context [rerender ?x] =>
        pose proof (rerender_refs x) as H;
        replace (preview (rerender x)) with (preview x) by (now destruct x)
      end. exact H.
    + destruct (truthy (preview_shown (render s))); [|exact IH].
      match goal with |- context [rerender ?x] =>
        pose proof (rerender_refs x) as H;
        replace (preview (rerender x)) with (preview x) by (now destruct x)
      end. exact H.
    + destruct (submit_enabled s); [|exact IH].
      unfold handleSubmit. destruct (imageData s); exact IH.
    + destruct (skip_enabled s); exact IH.
Qed.

(** X7: in every reachable state the two file inputs are mounted
    exactly while no preview is set.  So when the Remove button is there
    to be clicked both refs are null, and [handleClear] only resets
    preview and payload: its two resets of the inputs' values do not
    run. *)
Theorem clear_never_touches_inputs (evs : list event) (u : url) :
  let s := run init evs in
  preview s = Some u ->
  fileInputRef s = None /\ cameraInputRef s = None
  /\ handleClear s = setImageData None (setPreview None s).
Proof.
  cbv zeta. intros Hu.
  destruct (refs_follow_preview evs) as [_ H].
  destruct H as [Hf Hc]; [congruence|].
  split; [exact Hf|]. split; [exact Hc|].
  destruct (run init evs) as [pv im ld fr cr rd nx ef].
  cbn in Hf, Hc. subst fr cr. reflexivity.
Qed.

Lemma clear_never_touches_inputs_witness :
  handleClear Samples.ready = setImageData None (setPreview None Samples.ready).
Proof.
  apply (clear_never_touches_inputs [Change Gallery [Samples.hi_png];
                                     ReaderLoad 0] 0).
  reflexivity.
Defined.

(** *** Removing a file that is still being encoded *)

(** X8: removing a file while it is being encoded cancels nothing: the
    inputs come back, but the loading flag stays set, the skip button
    stays disabled and the reader keeps running; when it fires, the
    payload of the removed file is stored, with no preview and no submit
    button. *)
Theorem remove_does_not_cancel (s : state) (i : surface) (f : File) :
  reachable s -> preview s = None ->
  let s1 := run s [Change i [f]; ClickRemove] in
  let s2 := step s1 (ReaderLoad (next_url s)) in
  preview s1 = None /\ imageData s1 = None
  /\ inputs_shown (render s1) = true
  /\ loading s1 = true /\ skip_enabled s1 = false
  /\ find_reader (next_url s) (readers s1) = Some f
  /\ imageData s2 = Some (payload_of f) /\ preview s2 = None
  /\ loading s2 = false /\ submit_enabled s2 = false.
Proof.
  intros Hr Hp. apply Capture.reachable_numbered in Hr.
  cbv zeta. cbn [run fold_left].
  rewrite (Capture.step_change_file s i f [] Hp).
  rewrite (Capture.step_remove _ (next_url s)) by reflexivity.
  cbn [loading readers next_url effects].
  assert (Hf : find_reader (next_url s) (readers s ++ [(next_url s, f)])
               = Some f).
  { rewrite (Capture.find_reader_later _ _ _ _ Hr (le_n _)).
    cbn. now rewrite Nat.eqb_refl. }
  rewrite (Capture.step_load _ (next_url s) f) by exact Hf.
  cbn [preview imageData loading readers].
  repeat split; try reflexivity; exact Hf.
Qed.

Lemma remove_does_not_cancel_witness :
  let s1 := run init [Change Camera [Samples.hi_png]; ClickRemove] in
  loading s1 = true /\ skip_enabled s1 = false
  /\ imageData (step s1 (ReaderLoad 0))
     = Some {| base64 := Some "aGk="; mimeType := "image/png" |}
  /\ preview (step s1 (ReaderLoad 0)) = None.
Proof.
  destruct (remove_does_not_cancel init Camera Samples.hi_png
              (ex_intro _ [] eq_refl) eq_refl)
    as (_ & _ & _ & H1 & H2 & _ & H3 & H4 & _).
  exact (conj H1 (conj H2 (conj H3 H4))).
Defined.

(** *** Submitting while another file is being encoded *)

(** X9: the loading flag is cleared by whichever encode settles first.
    After a first file was chosen and removed and a second one chosen,
    the first reader firing stores the first file's payload under the
    second file's preview and enables the submit button although the
    second encode is still running; a click then submits the first
    file's payload. *)
Theorem mismatched_submit_possible (s : state) (f1 f2 : File) :
  reachable s -> preview s = None ->
  let s' := run s [Change Camera [f1]; ClickRemove; Change Gallery [f2];
                   ReaderLoad (next_url s)] in
  preview s' = Some (S (next_url s))
  /\ imageData s' = Some (payload_of f1)
  /\ find_reader (S (next_url s)) (readers s') = Some f2
  /\ loading s' = false
  /\ submit_enabled s' = true
  /\ effects (step s' ClickSubmit) = effects s ++ [OnSubmit (payload_of f1)].
Proof.
  intros Hr Hp. apply Capture.reachable_numbered in Hr.
  change [Change Camera [f1]; ClickRemove; Change Gallery [f2];
          ReaderLoad (next_url s)]
    with ([Change Camera [f1]; ClickRemove; Change Gallery [f2]]
          ++ [ReaderLoad (next_url s)]).
  cbv zeta. rewrite Capture.run_app, (Capture.two_selections s f1 f2 Hp).
  cbn [run fold_left].
  assert (Hne : Nat.eqb (S (next_url s)) (next_url s) = false)
    by (apply Nat.eqb_neq; lia).
  erewrite Capture.step_load; cycle 1.
  { cbn [readers]. rewrite (Capture.find_reader_later _ _ _ _ Hr (le_n _)).
    cbn. now rewrite Nat.eqb_refl. }
  cbn [preview imageData loading readers].
  rewrite (Capture.drop_reader_later _ _ _ _ Hr (le_n _)).
  cbn [drop_reader filter fst]. rewrite Nat.eqb_refl, Hne. cbn [negb].
  rewrite (Capture.find_reader_later _ _ (next_url s) (S (next_url s)) Hr)
    by lia.
  cbn [find_reader]. rewrite Nat.eqb_refl.
  repeat split.
Qed.

Lemma mismatched_submit_possible_witness :
  let s' := run init [Change Camera [Samples.hi_png]; ClickRemove;
                      Change Gallery [Samples.man_jpg]; ReaderLoad 0] in
  preview s' = Some 1
  /\ imageData s' = Some (payload_of Samples.hi_png)
  /\ find_reader 1 (readers s') = Some Samples.man_jpg
  /\ loading s' = false
  /\ submit_enabled s' = true
  /\ effects (step s' ClickSubmit) = [OnSubmit (payload_of Samples.hi_png)].
Proof.
  exact (mismatched_submit_possible init Samples.hi_png Samples.man_jpg
           (ex_intro _ [] eq_refl) eq_refl).
Defined.

End Flow.

(** ** The response logger: the log file and the routing *)

Module LogFile.
Import ApiLogger.
Local Open Scope list_scope.

Section Facts.

Variable utf8_encode : string -> list byte.
Variable utf8_decode : list byte -> error + string.
Variable json_pretty : string -> option string.
Variable timestamp : string.
Variable write_result end_result :
  list wire_call -> jsval -> list jsval -> error + jsval.

Abbreviation capture := (ApiLogger.capture utf8_encode).
Abbreviation log_response :=
  (ApiLogger.log_response utf8_decode json_pretty timestamp).
Abbreviation wrapped_write :=
  (ApiLogger.wrapped_write utf8_encode write_result).
Abbreviation wrapped_end :=
  (ApiLogger.wrapped_end utf8_encode utf8_decode json_pretty timestamp
     end_result).
Abbreviation perform :=
  (ApiLogger.perform utf8_encode utf8_decode json_pretty timestamp
     write_result end_result).
Abbreviation handler :=
  (ApiLogger.handler utf8_encode utf8_decode json_pretty timestamp
     write_result end_result).
Abbreviation serve_logged :=
  (ApiLogger.serve_logged utf8_encode utf8_decode json_pretty timestamp
     write_result end_result).
Abbreviation serve_plain :=
  (ApiLogger.serve_plain utf8_encode utf8_decode json_pretty timestamp
     write_result end_result).
Abbreviation startup := (ApiLogger.startup timestamp).

(** X11: a request whose URL starts with none of the four prefixes (or
    that has no URL) is served exactly as without the logger, whatever
    the handler passes to [write] and [end]: same results, same final
    world, nothing logged. *)
Theorem non_api_untouched (req : request) (cs : list res_call) (w : world) :
  isApiCall req = false -> serve_logged req cs w = serve_plain cs w.
Proof.
  intros H. unfold ApiLogger.serve_logged, ApiLogger.serve_plain, bind.
  now rewrite (Logger.middleware_passes_through req w H).
Qed.

(** *** The log only grows *)

Lemma capture_keeps_log (chunk : jsval) (w : world) :
  log_content (snd (capture chunk w)) = log_content w.
Proof.
  destruct w as [lw lc co ch st rw re nx wi].
  unfold ApiLogger.capture, bind, lift, chunks_push.
  destruct (truthy chunk); [|reflexivity].
  destruct chunk; reflexivity.
Qed.

Lemma log_response_extends (req : request) (w : world) :
  exists suffix,
    log_content (snd (log_response req w)) = (log_content w ++ suffix)%string.
Proof.
  destruct (Logger.log_response_cases utf8_decode json_pretty timestamp req w)
    as [[err ->] | [_ (entry & line & ->)]].
  - exists ""%string. cbn. clear. induction (log_content w); cbn; congruence.
  - now exists entry.
Qed.

Lemma append_empty (a : string) : (a ++ "")%string = a.
Proof. induction a; cbn; congruence. Qed.

Lemma perform_extends (c : res_call) (w : world) :
  exists suffix,
    log_content (snd (perform c w)) = (log_content w ++ suffix)%string.
Proof.
  destruct c as [chunk args|chunk args]; cbn [ApiLogger.perform].
  - unfold call_write.
    destruct (res_write w) as [|req].
    + exists ""%string. cbn. now rewrite append_empty.
    + exists ""%string. rewrite append_empty.
      unfold ApiLogger.wrapped_write, bind.
      pose proof (capture_keeps_log chunk w) as Hc.
      destruct (capture chunk w) as [[e|[]] w1]; cbn in *; exact Hc.
  - unfold call_end.
    destruct (res_end w) as [|req].
    + exists ""%string. cbn. now rewrite append_empty.
    + unfold ApiLogger.wrapped_end, bind, try_catch.
      pose proof (capture_keeps_log chunk w) as Hc.
      destruct (capture chunk w) as [[e|[]] w1]; cbn [snd] in Hc.
      * exists ""%string. now rewrite append_empty.
      * destruct (log_response_extends req w1) as [suffix Hs].
        rewrite Hc in Hs. exists suffix.
        destruct (log_response req w1) as [[e|[]] w2]; cbn in *; exact Hs.
Qed.

Lemma handler_extends (cs : list res_call) :
  forall w, exists suffix,
    log_content (snd (handler cs w)) = (log_content w ++ suffix)%string.
Proof.
  induction cs as [|c cs IH]; intros w.
  - exists ""%string. cbn. now rewrite append_empty.
  - rewrite Logger.handler_cons.
    destruct (perform_extends c w) as [s1 H1].
    destruct (perform c w) as [[e|v] w1]; cbn [snd] in H1.
    + now exists s1.
    + destruct (IH w1) as [s2 H2].
      exists (s1 ++ s2)%string.
      rewrite <- JsFacts.append_assoc, <- H1.
      destruct (handler cs w1) as [[e|vs] w2]; cbn in *; exact H2.
Qed.

Lemma serve_extends (req : request) (cs : list res_call) (w : world) :
  exists suffix,
    log_content (snd (serve_logged req cs w))
    = (log_content w ++ suffix)%string.
Proof.
  unfold ApiLogger.serve_logged, bind.
  assert (Hm : exists w1, ApiLogger.middleware req w = (inr tt, w1)
                          /\ log_content w1 = log_content w).
  { unfold ApiLogger.middleware, next.
    destruct (negb (isApiCall req)); eexists; split; reflexivity. }
  destruct Hm as (w1 & -> & Hw1). rewrite <- Hw1. apply handler_extends.
Qed.

(** X12: serving a request never removes or rewrites what is in the log
    file: whatever the request and whatever the handler calls (even
    calls that throw), the log afterwards is the log before with text
    added at its end, and a handler that only writes adds nothing. *)
Theorem log_is_append_only (req : request) (cs : list res_call) (w : world) :
  (exists suffix,
     log_content (snd (serve_logged req cs w))
     = (log_content w ++ suffix)%string)
  /\ (forallb is_write cs = true ->
      log_content (snd (serve_logged req cs w)) = log_content w).
Proof.
  split; [apply serve_extends|].
  intros Hws. unfold ApiLogger.serve_logged, bind.
  assert (Hm : exists w1, ApiLogger.middleware req w = (inr tt, w1)
                          /\ log_content w1 = log_content w).
  { unfold ApiLogger.middleware, next.
    destruct (negb (isApiCall req)); eexists; split; reflexivity. }
  destruct Hm as (w1 & -> & Hw1). rewrite <- Hw1. clear Hw1 w.
  revert w1. induction cs as [|c cs IH]; intros w; [reflexivity|].
  cbn [forallb] in Hws. apply andb_prop in Hws as [Hc Hcs].
  rewrite Logger.handler_cons.
  destruct c as [chunk args|chunk args]; [|discriminate].
  assert (Hp : log_content (snd (perform (CallWrite chunk args) w))
               = log_content w).
  { cbn [ApiLogger.perform]. unfold call_write.
    destruct (res_write w) as [|r]; [reflexivity|].
    unfold ApiLogger.wrapped_write, bind.
    pose proof (capture_keeps_log chunk w) as Hk.
    destruct (capture chunk w) as [[e|[]] w1]; cbn in *; exact Hk. }
  destruct (perform (CallWrite chunk args) w) as [[e|v] w1];
    cbn [snd] in *; [exact Hp|].
  rewrite <- Hp. specialize (IH Hcs w1).
  destruct (handler cs w1) as [[e|vs] w2]; cbn in *; exact IH.
Qed.

(** X13: creating the plugin truncates the log: with a writable file
    the banner replaces whatever was there (two starts from different
    contents leave the same text), and a request served afterwards only
    adds to the banner. *)
Theorem banner_stays_first (req : request) (cs : list res_call)
    (w w' : world) :
  log_writable w = true -> log_writable w' = true ->
  fst (startup w) = inr tt
  /\ log_content (snd (startup w)) = log_content (snd (startup w'))
  /\ exists suffix,
       log_content (snd (serve_logged req cs (snd (startup w))))
       = (log_content (snd (startup w')) ++ suffix)%string.
Proof.
  intros Hw Hw'.
  assert (E : forall x, log_writable x = true ->
                startup x = (inr tt, set_log (log_content (snd (startup w))) x)).
  { intros x Hx. unfold ApiLogger.startup, writeFileSync.
    rewrite Hx, Hw. reflexivity. }
  split; [now rewrite (E w Hw)|].
  assert (Eq : log_content (snd (startup w)) = log_content (snd (startup w'))).
  { now rewrite (E w' Hw'). }
  split; [exact Eq|]. rewrite <- Eq. apply serve_extends.
Qed.

(** *** What the entry holds *)

Lemma capture_exact (chunk : jsval) (w : world) :
  is_data chunk = true ->
  capture chunk w
  = (inr tt, set_chunks (chunks w ++ captured utf8_encode chunk) w).
Proof.
  destruct w as [lw lc co ch st rw re nx wi].
  destruct chunk as [| |s|b|id|b|]; try discriminate; intros _;
    unfold ApiLogger.capture, captured; cbn [truthy];
    try (cbn; now rewrite app_nil_r).
  - destruct (negb (String.eqb s "")); cbn; [reflexivity|].
    now rewrite app_nil_r.
  - reflexivity.
Qed.

Lemma handler_app (a b : list res_call) :
  forall w,
    handler (a ++ b) w =
    match handler a w with
    | (inr va, w') =>
        match handler b w' with
        | (inr vb, w'') => (inr (va ++ vb), w'')
        | (inl e, w'') => (inl e, w'')
        end
    | (inl e, w') => (inl e, w')
    end.
Proof.
  induction a as [|c a IH]; intros w.
  - cbn [app]. cbn [ApiLogger.handler]. unfold ret.
    now destruct (handler b w) as [[e|vb] w''].
  - cbn [app]. rewrite !Logger.handler_cons.
    destruct (perform c w) as [[e|v] w1]; [reflexivity|].
    rewrite IH.
    destruct (handler a w1) as [[e|va] w2]; [reflexivity|].
    now destruct (handler b w2) as [[e|vb] w3].
Qed.

(** Writes that succeed change [chunks] and [wire] only. *)
Lemma writes_accumulate (req : request) (ws : list res_call) :
  forall w vs w',
    res_write w = Wrapped req ->
    forallb is_write ws = true -> forallb data_call ws = true ->
    handler ws w = (inr vs, w') ->
    exists wi,
      w' = set_wire wi
             (set_chunks
                (chunks w
                 ++ flat_map (fun c => captured utf8_encode (call_chunk c)) ws)
                w).
Proof.
  induction ws as [|c ws IH]; intros w vs w' Hw Hws Hds H.
  - cbn in H. unfold ret in H. injection H as _ <-. exists (wire w).
    destruct w; cbn. now rewrite app_nil_r.
  - cbn [forallb] in Hws, Hds.
    apply andb_prop in Hws as [Hc Hws]. apply andb_prop in Hds as [Hd Hds].
    destruct c as [chunk args|chunk args]; [|discriminate].
    rewrite Logger.handler_cons in H. cbn [ApiLogger.perform] in H.
    unfold call_write in H. rewrite Hw in H.
    unfold ApiLogger.wrapped_write, bind in H.
    cbn [data_call] in Hd. rewrite (capture_exact chunk w Hd) in H.
    unfold originalWrite in H. cbn [wire chunks] in H.
    destruct (write_result _ chunk args) as [e|v]; [discriminate|].
    match type of H with
    | match handler ws ?w1 with _ => _ end = _ =>
        destruct (handler ws w1) as [[e|vs1] w2] eqn:Hh; [discriminate|];
        apply IH in Hh; [|exact Hw|exact Hws|exact Hds]
    end.
    injection H as _ <-. destruct Hh as [wi ->]. exists wi.
    destruct w; cbn. now rewrite <- app_assoc.
Qed.

(** The entry appended by an [end] whose [try] block succeeds. *)
Lemma end_logs (req : request) (chunk : jsval) (args : list jsval)
    (w : world) (body : string) :
  is_data chunk = true -> log_writable w = true ->
  utf8_decode (List.concat (chunks w ++ captured utf8_encode chunk))
  = inr body ->
  log_content (snd (wrapped_end req chunk args w))
  = (log_content w
     ++ "[" ++ timestamp ++ "]" ++ newline
     ++ method req ++ " " ++ show (url req) ++ newline
     ++ "Status: " ++ show_nat (statusCode w) ++ newline
     ++ "Response:" ++ newline
     ++ match json_pretty body with Some pretty => pretty | None => body end
     ++ newline ++ repeat_string "─" 50 ++ newline ++ newline)%string.
Proof.
  intros Hd Hlw Hbody.
  unfold ApiLogger.wrapped_end, bind, try_catch.
  rewrite (capture_exact chunk w Hd).
  unfold ApiLogger.log_response, bind, lift, get_chunks, get_statusCode,
    logToFile, appendFileSync, console_log.
  cbn [chunks set_chunks log_writable statusCode].
  rewrite Hbody, Hlw.
  cbn [log_content set_log set_console set_chunks originalEnd snd fst
       set_wire Js.join String.concat].
  now rewrite !JsFacts.append_assoc.
Qed.

(** X14: when a handler writes its response in pieces and then ends it,
    the one entry appended to the log holds the whole body: the bytes of
    every non-empty chunk passed to [write] and to [end], in call order,
    decoded together and pretty-printed when they are JSON, under the
    request line and the status of that moment. *)
Theorem whole_body_logged (req : request) (ws : list res_call)
    (chunk : jsval) (args : list jsval) (w w1 : world) (vs : list jsval)
    (body : string) :
  res_write w = Wrapped req -> res_end w = Wrapped req ->
  log_writable w = true ->
  forallb is_write ws = true -> forallb data_call ws = true ->
  is_data chunk = true ->
  handler ws w = (inr vs, w1) ->
  utf8_decode
    (List.concat
       (chunks w
        ++ flat_map (fun c => captured utf8_encode (call_chunk c)) ws
        ++ captured utf8_encode chunk)) = inr body ->
  log_content (snd (handler (ws ++ [CallEnd chunk args]) w))
  = (log_content w
     ++ "[" ++ timestamp ++ "]" ++ newline
     ++ method req ++ " " ++ show (url req) ++ newline
     ++ "Status: " ++ show_nat (statusCode w) ++ newline
     ++ "Response:" ++ newline
     ++ match json_pretty body with Some pretty => pretty | None => body end
     ++ newline ++ repeat_string "─" 50 ++ newline ++ newline)%string.
Proof.
  intros Hw He Hlw Hws Hds Hd Hh Hbody.
  rewrite handler_app, Hh.
  destruct (writes_accumulate req ws w vs w1 Hw Hws Hds Hh) as [wi ->].
  rewrite Logger.handler_cons. cbn [ApiLogger.perform]. unfold call_end.
  change (res_end (set_wire wi (set_chunks _ w))) with (res_end w).
  rewrite He.
  rewrite app_assoc in Hbody.
  pose proof (end_logs req chunk args
                (set_wire wi
                   (set_chunks
                      (chunks w
                       ++ flat_map
                            (fun c => captured utf8_encode (call_chunk c)) ws)
                      w))
                body Hd Hlw Hbody) as H.
  destruct (wrapped_end req chunk args _) as [[e|v] w2]; exact H.
Qed.

(** X15: every [end] with a data chunk leaves exactly one line on the
    console: either the confirmation, and then one entry was appended to
    the log, or the error report, and then the log is as it was.  The
    call reaches the original [end] in both cases. *)
Theorem every_end_accounted (req : request) (chunk : jsval)
    (args : list jsval) (w : world) :
  is_data chunk = true ->
  let out := wrapped_end req chunk args w in
  wire (snd out) = wire w ++ [End chunk args]
  /\ ((log_writable w = true
       /\ console (snd out)
          = console w ++ [Log ("📝 Logged API response: " ++ method req
                               ++ " " ++ show (url req))]
       /\ exists entry,
            log_content (snd out) = (log_content w ++ entry)%string
            /\ entry <> ""%string)
      \/ (exists err,
            console (snd out)
            = console w ++ [Error "Failed to log API response:" err]
            /\ log_content (snd out) = log_content w)).
Proof.
  intros Hd. cbv zeta.
  unfold ApiLogger.wrapped_end, bind, try_catch.
  rewrite (capture_exact chunk w Hd).
  unfold ApiLogger.log_response, bind, lift, get_chunks, get_statusCode,
    logToFile, appendFileSync, console_log.
  cbn [chunks set_chunks log_writable statusCode].
  destruct (utf8_decode _) as [err|body].
  - split; [reflexivity|]. right. exists err. split; reflexivity.
  - destruct (log_writable w) eqn:Hlw.
    + split; [reflexivity|]. left. split; [reflexivity|].
      split; [reflexivity|]. eexists. split; [reflexivity|]. discriminate.
    + split; [reflexivity|]. right. eexists. split; reflexivity.
Qed.

End Facts.

Lemma non_api_untouched_witness :
  serve_logged Platform.utf8_encode Platform.utf8_decode
    Platform.json_pretty Platform.timestamp Platform.write_result
    Platform.end_result Platform.asset [CallEnd (JFunction 0) []]
    (fresh true)
  = serve_plain Platform.utf8_encode Platform.utf8_decode
      Platform.json_pretty Platform.timestamp Platform.write_result
      Platform.end_result [CallEnd (JFunction 0) []] (fresh true).
Proof.
  apply (non_api_untouched Platform.utf8_encode Platform.utf8_decode
           Platform.json_pretty Platform.timestamp Platform.write_result
           Platform.end_result Platform.asset).
  reflexivity.
Defined.

Lemma log_is_append_only_witness :
  log_content
    (snd (serve_logged Platform.utf8_encode Platform.utf8_decode
            Platform.json_pretty Platform.timestamp Platform.write_result
            Platform.end_result Platform.health
            [CallWrite (JString "a") []; CallWrite (JFunction 0) []]
            (fresh true)))
  = ""%string.
Proof.
  apply (proj2 (log_is_append_only Platform.utf8_encode Platform.utf8_decode
                  Platform.json_pretty Platform.timestamp
                  Platform.write_result Platform.end_result Platform.health
                  [CallWrite (JString "a") []; CallWrite (JFunction 0) []]
                  (fresh true))).
  reflexivity.
Defined.

Lemma banner_stays_first_witness :
  log_content (snd (startup Platform.timestamp (set_log "old" (fresh true))))
  = log_content (snd (startup Platform.timestamp (fresh true))).
Proof.
  apply (banner_stays_first Platform.utf8_encode Platform.utf8_decode
           Platform.json_pretty Platform.timestamp Platform.write_result
           Platform.end_result Platform.health []
           (set_log "old" (fresh true)) (fresh true));
    reflexivity.
Defined.

Lemma whole_body_logged_witness :
  log_content
    (snd (handler Platform.utf8_encode Platform.utf8_decode
            Platform.json_pretty Platform.timestamp Platform.write_result
            Platform.end_result
            ([CallWrite (JString "he") []; CallWrite (JString "") [];
              CallWrite (JBuffer ["l"%byte; "l"%byte]) []]
             ++ [CallEnd (JString "o") []])
            (set_methods (Wrapped Platform.health) (Wrapped Platform.health)
               (fresh true))))
  = ("[2025-01-01T00:00:00.000Z]" ++ newline
     ++ "GET /api/health" ++ newline
     ++ "Status: 200" ++ newline
     ++ "Response:" ++ newline
     ++ "hello" ++ newline ++ repeat_string "─" 50 ++ newline ++ newline)%string.
Proof.
  apply (whole_body_logged Platform.utf8_encode Platform.utf8_decode
           Platform.json_pretty Platform.timestamp Platform.write_result
           Platform.end_result Platform.health
           [CallWrite (JString "he") []; CallWrite (JString "") [];
            CallWrite (JBuffer ["l"%byte; "l"%byte]) []]
           (JString "o") []
           (set_methods (Wrapped Platform.health) (Wrapped Platform.health)
              (fresh true))
           (snd (handler Platform.utf8_encode Platform.utf8_decode
                   Platform.json_pretty Platform.timestamp
                   Platform.write_result Platform.end_result
                   [CallWrite (JString "he") []; CallWrite (JString "") [];
                    CallWrite (JBuffer ["l"%byte; "l"%byte]) []]
                   (set_methods (Wrapped Platform.health)
                      (Wrapped Platform.health) (fresh true))))
           [JBool true; JBool true; JBool true] "hello");
    reflexivity.
Defined.

Lemma every_end_accounted_witness :
  wire (snd (wrapped_end Platform.utf8_encode Platform.utf8_decode
               Platform.json_pretty Platform.timestamp Platform.end_result
               Platform.health (JString "ok") [] (fresh true)))
  = [End (JString "ok") []].
Proof.
  apply (every_end_accounted Platform.utf8_encode Platform.utf8_decode
           Platform.json_pretty Platform.timestamp Platform.end_result
           Platform.health (JString "ok") [] (fresh true)).
  reflexivity.
Defined.

End LogFile.

(** ** Which requests are logged *)

Module Routing.
Import ApiLogger.
Local Open Scope list_scope.

Lemma startsWith_iff (p s : string) :
  Js.startsWith p s = true <-> exists t, s = (p ++ t)%string.
Proof.
  unfold Js.startsWith. revert s.
  induction p as [|c p IH]; intros s; cbn.
  - destruct s; split; eauto.
  - destruct s as [|d s]; cbn.
    + split; [discriminate|]. intros [t Ht]. discriminate.
    + destruct (Ascii.ascii_dec c d) as [->|Hne].
      * rewrite IH. split; intros [t Ht]; exists t; congruence.
      * split; [discriminate|]. intros [t Ht]. congruence.
Qed.

(** X16: a request is intercepted exactly when its URL is one of
    [/users], [/tasks], [/energy], [/api] followed by anything: no
    separator is required after the prefix, so [/apiary] or
    [/users-old] count as API calls, and a request without URL does
    not. *)
Theorem isApiCall_iff (req : request) :
  isApiCall req = true <->
  exists p t, In p apiPaths /\ url req = Some (p ++ t)%string.
Proof.
  unfold isApiCall. rewrite existsb_exists. split.
  - intros (p & Hin & H). destruct (url req) as [u|]; [|discriminate].
    apply startsWith_iff in H as [t ->]. now exists p, t.
  - intros (p & t & Hin & ->). exists p. split; [exact Hin|].
    apply startsWith_iff. now exists t.
Qed.

(** X17: the logger's test agrees with the proxy table of
    vite.config.js: in every mode, a URL is an API call for the logger
    if and only if [server.proxy] has a rule for it, and the rule always
    leads to [http://localhost:8000]. *)
Theorem logged_iff_proxied (mode : string) (req : request) :
  (isApiCall req = true <->
   exists u, url req = Some u
             /\ ViteConfig.proxy_target (ViteConfig.defineConfig mode) u
                = Some "http://localhost:8000"%string)
  /\ (forall u, url req = Some u -> isApiCall req = false ->
        ViteConfig.proxy_target (ViteConfig.defineConfig mode) u = None).
Proof.
  unfold isApiCall, ViteConfig.proxy_target, ViteConfig.defineConfig.
  cbn [ViteConfig.proxy apiPaths existsb find fst].
  destruct (url req) as [u|].
  - split; [split|].
    + intros H. exists u. split; [reflexivity|].
      destruct (Js.startsWith "/users" u), (Js.startsWith "/tasks" u),
        (Js.startsWith "/energy" u), (Js.startsWith "/api" u);
        cbn in *; try reflexivity; discriminate.
    + intros (x & Hx & H). injection Hx as <-.
      destruct (Js.startsWith "/users" u), (Js.startsWith "/tasks" u),
        (Js.startsWith "/energy" u), (Js.startsWith "/api" u);
        cbn in *; try reflexivity; discriminate.
    + intros x Hx H. injection Hx as <-.
      destruct (Js.startsWith "/users" u), (Js.startsWith "/tasks" u),
        (Js.startsWith "/energy" u), (Js.startsWith "/api" u);
        cbn in *; try reflexivity; discriminate.
  - cbn. split; [split; [discriminate|intros (x & Hx & _); discriminate]|].
    intros x Hx. discriminate.
Qed.

Lemma logged_iff_proxied_witness :
  ViteConfig.proxy_target (ViteConfig.defineConfig "production")
    "/src/main.jsx" = None.
Proof.
  apply (proj2 (logged_iff_proxied "production" Platform.asset));
    reflexivity.
Defined.

End Routing.
